(** * ReinventCommunity: the SMILES tokenizer and the score transformations

    A shallow embedding of [notebooks/code/data_preparation.py]
    ([SMILESTokenizer]) and of [notebooks/code/score_transformation_code.py]
    ([TransformationFactory]), with the properties their specification
    states about them.

    Python strings are modelled by [string]: sequences of characters with
    code points below 256.  On that range [\d] is exactly the ten ASCII
    digits, and a negated character class matches every other character,
    line breaks included.

    Python numbers are modelled by a class [Number] of arithmetics whose
    division and power can raise; the statements about the transformations
    hold in every such arithmetic.  Worked examples are evaluated in
    binary64, the floats of Python. *)

From Stdlib Require Import Ascii ZArith Floats.
From Equations Require Import Equations.
From stdpp Require Import gmap strings list.

(** ** Strings *)

Module Str.

Fixpoint take (n : nat) (s : string) : string :=
  match n, s with
  | S n', String c s' => String c (take n' s')
  | _, _ => ""
  end.

Fixpoint drop (n : nat) (s : string) : string :=
  match n, s with
  | S n', String _ s' => drop n' s'
  | _, _ => s
  end.

(** [list(s)]: the one-character strings of [s], in order. *)
Fixpoint chars (s : string) : list string :=
  match s with
  | "" => []
  | String c s' => String c "" :: chars s'
  end.

(** [c in s] for a character [c]. *)
Fixpoint occurs (c : ascii) (s : string) : bool :=
  match s with
  | "" => false
  | String d s' => if decide (c = d) then true else occurs c s'
  end.

(** ["".join(l)]. *)
Definition join (l : list string) : string := foldr String.app "" l.

Lemma app_cons c s t : String c s +:+ t = String c (s +:+ t).
Proof. reflexivity. Qed.

Lemma app_nil_l s : "" +:+ s = s.
Proof. reflexivity. Qed.

Lemma app_nil_r s : s +:+ "" = s.
Proof. induction s as [|c s IH]; [done|]. by rewrite app_cons, IH. Qed.

Lemma app_assoc s t u : (s +:+ t) +:+ u = s +:+ (t +:+ u).
Proof. induction s as [|c s IH]; [done|]. by rewrite !app_cons, IH. Qed.

Lemma take_drop n s : take n s +:+ drop n s = s.
Proof.
  revert s; induction n as [|n IH]; intros [|c s]; simpl; try done.
  by rewrite app_cons, IH.
Qed.

Lemma drop_length n s : String.length (drop n s) ≤ String.length s.
Proof.
  revert s; induction n as [|n IH]; intros [|c s]; simpl; try lia.
  specialize (IH s); lia.
Qed.

Lemma take_app_le n s t :
  n ≤ String.length s → take n (s +:+ t) = take n s.
Proof.
  revert s; induction n as [|n IH]; intros [|c s] Hn; simpl in *;
    try done; try lia.
  f_equal. apply IH; lia.
Qed.

Lemma drop_app_le n s t :
  n ≤ String.length s → drop n (s +:+ t) = drop n s +:+ t.
Proof.
  revert s; induction n as [|n IH]; intros [|c s] Hn; simpl in *;
    try done; try lia.
  apply IH; lia.
Qed.

Lemma occurs_app c s t : occurs c (s +:+ t) = occurs c s || occurs c t.
Proof.
  induction s as [|d s IH]; [done|].
  rewrite app_cons. simpl. by case_decide.
Qed.

Lemma join_app l k : join (l ++ k) = join l +:+ join k.
Proof.
  induction l as [|s l IH]; [done|].
  simpl. unfold join in *. simpl. by rewrite IH, app_assoc.
Qed.

Lemma join_chars s : join (chars s) = s.
Proof.
  induction s as [|c s IH]; [done|].
  simpl. unfold join in *. simpl. by rewrite IH.
Qed.

End Str.

(** ** The tokenizer ([SMILESTokenizer]) *)

Module Tokenizer.

(** A compiled pattern as [split] uses it: tried at the head of the text that
    is left, it fails or gives the number of characters of its match there.
    The three patterns have no anchor and no look-around, so whether and how
    far they match at a position depends on the text from there on only. *)
Definition pattern := string → option nat.

(** [[^\]]*\]]: the greedy class runs up to the first "]", which closes the
    match; without a "]" ahead there is no match. *)
Fixpoint close_bracket (s : string) : option nat :=
  match s with
  | "" => None
  | String c s' =>
      if decide (c = "]"%char) then Some 1 else S <$> close_bracket s'
  end.

(** ["brackets": re.compile(r"(\[[^\]]*\])")] *)
Definition brackets : pattern := λ s,
  match s with
  | String "["%char s' => S <$> close_bracket s'
  | _ => None
  end.

(** [\d] *)
Definition is_digit (c : ascii) : bool :=
  match c with
  | "0" | "1" | "2" | "3" | "4" | "5" | "6" | "7" | "8" | "9" => true
  | _ => false
  end%char.

(** ["2_ring_nums": re.compile(r"(%\d{2})")] *)
Definition two_ring_nums : pattern := λ s,
  match s with
  | String "%"%char (String d1 (String d2 _)) =>
      if is_digit d1 && is_digit d2 then Some 3 else None
  | _ => None
  end.

(** ["brcl": re.compile(r"(Br|Cl)")] *)
Definition brcl : pattern := λ s,
  match s with
  | String "B"%char (String "r"%char _) => Some 2
  | String "C"%char (String "l"%char _) => Some 2
  | _ => None
  end.

(** The keys of the [REGEXPS] dictionary. *)
Inductive regexp_name := Brackets | TwoRingNums | BrCl.

Definition REGEXPS (name : regexp_name) : pattern :=
  match name with
  | Brackets => brackets
  | TwoRingNums => two_ring_nums
  | BrCl => brcl
  end.

Definition REGEXP_ORDER : list regexp_name := [Brackets; TwoRingNums; BrCl].

(** A character that starts no match joins the unmatched piece in front. *)
Definition push_front (c : ascii) (pieces : list string) : list string :=
  match pieces with
  | [] => [String c ""]
  | u :: pieces' => String c u :: pieces'
  end.

(** [regexp.split(text)] for a pattern that is one capturing group: the
    text before the leftmost match, the match, and the split of what follows
    it; the whole text when nothing matches.  The result alternates unmatched
    pieces (even indices, possibly empty) and matches (odd indices).  The
    three patterns match at least two characters; a pattern reporting an empty
    match is treated as not matching there. *)
Equations? re_split (p : pattern) (text : string) : list string
  by wf (String.length text) lt :=
  re_split p "" := [""];
  re_split p (String c s) with p (String c s) => {
    | Some (S k) := "" :: String c (Str.take k s) :: re_split p (Str.drop k s);
    | Some 0 := push_front c (re_split p s);
    | None := push_front c (re_split p s) }.
Proof.
  all: simpl; try lia.
  pose proof (Str.drop_length k s); lia.
Qed.

(** The loop of [split_by] over [enumerate(splitted)]: pieces at even indices
    are split further by [sub], pieces at odd indices are appended as they
    are. *)
Definition split_by_loop (sub : string → list string)
    (splitted : list string) : list string :=
  foldl (λ tokens '(i, split),
           if decide (i mod 2 = 0) then tokens ++ sub split
           else tokens ++ [split])
        [] (imap pair splitted).

(** The closure [split_by(smiles, regexps)] of [tokenize]. *)
Fixpoint split_by (smiles : string) (regexps : list regexp_name)
    {struct regexps} : list string :=
  match regexps with
  | [] => Str.chars smiles
  | name :: regexps' =>
      let regexp := REGEXPS name in
      let splitted := re_split regexp smiles in
      split_by_loop (λ split, split_by split regexps') splitted
  end.

(** [SMILESTokenizer.tokenize(smiles, with_begin_and_end)] *)
Definition tokenize (smiles : string) (with_begin_and_end : bool)
    : list string :=
  let tokens := split_by smiles REGEXP_ORDER in
  if with_begin_and_end then ["^"] ++ tokens ++ ["$"] else tokens.

(** The [for] loop of [untokenize], with [smi] the string built so far;
    [break] ends it. *)
Fixpoint untokenize_loop (smi : string) (tokens : list string) : string :=
  match tokens with
  | [] => smi
  | token :: tokens' =>
      if decide (token = "$") then smi
      else if decide (token ≠ "^") then untokenize_loop (smi +:+ token) tokens'
      else untokenize_loop smi tokens'
  end.

(** [SMILESTokenizer.untokenize(tokens)] *)
Definition untokenize (tokens : list string) : string :=
  untokenize_loop "" tokens.

Example tokenize_Clc1ccccc1 :
  tokenize "Clc1ccccc1" true =
  ["^"; "Cl"; "c"; "1"; "c"; "c"; "c"; "c"; "c"; "1"; "$"].
Proof. reflexivity. Qed.

Example tokenize_ring_labels :
  tokenize "C%12C%13" false = ["C"; "%12"; "C"; "%13"].
Proof. reflexivity. Qed.

Example tokenize_unclosed : tokenize "C[NH" false = ["C"; "["; "N"; "H"].
Proof. reflexivity. Qed.

Example tokenize_nested :
  tokenize "[[Cl]Br]%1%123" false =
  ["[[Cl]"; "Br"; "]"; "%"; "1"; "%12"; "3"].
Proof. reflexivity. Qed.

Example untokenize_sentinels :
  untokenize ["^"; "C"; "^"; "Cl"; "$"; "N"; "$"] = "CCl".
Proof. reflexivity. Qed.

(** *** The shape of a split *)

(** The tokens the loop of [split_by] builds, by recursion on the pieces:
    [even] tells whether the first piece has an even index. *)
Fixpoint weave (sub : string → list string) (even : bool)
    (pieces : list string) : list string :=
  match pieces with
  | [] => []
  | x :: pieces' =>
      (if even then sub x else [x]) ++ weave sub (negb even) pieces'
  end.

(** The pieces at odd indices: the matches. *)
Fixpoint matched (even : bool) (pieces : list string) : list string :=
  match pieces with
  | [] => []
  | x :: pieces' => (if even then [] else [x]) ++ matched (negb even) pieces'
  end.

Lemma mod2_even k : k mod 2 = 0 ↔ Nat.even k = true.
Proof.
  rewrite Nat.even_spec. split.
  - intros [j ->]%Nat.Lcm0.mod_divide. exists j; lia.
  - intros [j ->]. rewrite Nat.mul_comm. apply Nat.Div0.mod_mul.
Qed.

Lemma split_by_loop_from sub (k : nat) acc (l : list string) :
  foldl (λ tokens '(i, split),
           if decide (i mod 2 = 0) then tokens ++ sub split
           else tokens ++ [split])
        acc (imap (λ i, pair (k + i)) l)
  = acc ++ weave sub (Nat.even k) l.
Proof.
  revert k acc; induction l as [|x l IH]; intros k acc; cbn [imap foldl weave].
  { by rewrite app_nil_r. }
  rewrite (imap_ext _ (λ i, pair (S k + i))) by
    (intros; unfold compose; f_equal; lia).
  rewrite IH, Nat.add_0_r, Nat.even_succ, <- Nat.negb_even.
  destruct (Nat.even k) eqn:Hk.
  - rewrite decide_True by by apply mod2_even. by rewrite <- app_assoc.
  - rewrite decide_False by (rewrite mod2_even; congruence).
    by rewrite <- app_assoc.
Qed.

Lemma split_by_loop_weave sub l : split_by_loop sub l = weave sub true l.
Proof. apply (split_by_loop_from sub 0 [] l). Qed.

Lemma split_by_cons smiles name regexps :
  split_by smiles (name :: regexps) =
  weave (λ split, split_by split regexps) true
        (re_split (REGEXPS name) smiles).
Proof. simpl. apply split_by_loop_weave. Qed.

Lemma weave_app sub b l k :
  weave sub b (l ++ k) =
  weave sub b l ++ weave sub (if Nat.even (length l) then b else negb b) k.
Proof.
  revert b; induction l as [|x l IH]; intros b; [done|].
  rewrite <- app_comm_cons. cbn [weave length].
  rewrite IH, <- app_assoc. do 2 f_equal.
  rewrite Nat.even_succ, <- Nat.negb_even.
  by destruct (Nat.even (length l)), b.
Qed.

Lemma weave_join sub b l :
  (∀ u, Str.join (sub u) = u) → Str.join (weave sub b l) = Str.join l.
Proof.
  intros Hsub. revert b; induction l as [|x l IH]; intros b; [done|].
  simpl weave. rewrite Str.join_app, IH.
  by destruct b; [rewrite Hsub | unfold Str.join; simpl; rewrite Str.app_nil_r].
Qed.

Lemma weave_Forall (P : string → Prop) sub b l :
  (∀ u, Forall P (sub u)) → Forall P (matched b l) →
  Forall P (weave sub b l).
Proof.
  intros Hsub. revert b; induction l as [|x l IH]; intros b; [done|].
  simpl. rewrite !Forall_app. intros [Hx Hl]. split; [|by apply IH].
  by destruct b.
Qed.

Lemma push_front_join c l : l ≠ [] → Str.join (push_front c l) = String c (Str.join l).
Proof. by destruct l. Qed.

Lemma push_front_matched c l : matched true (push_front c l) = matched true l.
Proof. by destruct l. Qed.

Lemma push_front_length c l : l ≠ [] → length (push_front c l) = length l.
Proof. by destruct l. Qed.

Lemma re_split_nonempty p s : re_split p s ≠ [].
Proof.
  funelim (re_split p s); simp re_split; try done;
    rewrite ?Heq; simpl; by destruct (re_split p s).
Qed.

(** Splitting loses nothing: the pieces, joined, are the text. *)
Lemma re_split_join p s : Str.join (re_split p s) = s.
Proof.
  funelim (re_split p s); simp re_split; rewrite ?Heq; simpl; [done|..].
  - by rewrite push_front_join, H by apply re_split_nonempty.
  - unfold Str.join in *. simpl. rewrite H.
    by rewrite Str.app_nil_l, Str.app_cons, Str.take_drop.
  - by rewrite push_front_join, H by apply re_split_nonempty.
Qed.

(** Every match is a non-empty piece. *)
Lemma re_split_matched p s : Forall (λ m, m ≠ "") (matched true (re_split p s)).
Proof.
  funelim (re_split p s); simp re_split; rewrite ?Heq; simpl; [done|..].
  - by rewrite push_front_matched.
  - by constructor.
  - by rewrite push_front_matched.
Qed.

(** The pieces end with an unmatched one: their number is odd. *)
Lemma re_split_length p s : Nat.odd (length (re_split p s)) = true.
Proof.
  funelim (re_split p s); simp re_split; rewrite ?Heq; simpl; [done|..].
  - by rewrite push_front_length by apply re_split_nonempty.
  - done.
  - by rewrite push_front_length by apply re_split_nonempty.
Qed.

(** *** Tokens *)

Lemma split_by_join smiles regexps : Str.join (split_by smiles regexps) = smiles.
Proof.
  revert smiles; induction regexps as [|name regexps IH]; intros smiles.
  - apply Str.join_chars.
  - rewrite split_by_cons, weave_join by done. apply re_split_join.
Qed.

Lemma chars_nonempty s : Forall (λ t, t ≠ "") (Str.chars s).
Proof. induction s; by constructor. Qed.

Lemma split_by_nonempty smiles regexps :
  Forall (λ t, t ≠ "") (split_by smiles regexps).
Proof.
  revert smiles; induction regexps as [|name regexps IH]; intros smiles.
  - apply chars_nonempty.
  - rewrite split_by_cons. apply weave_Forall; [done|]. apply re_split_matched.
Qed.

(** A character of a token is a character of the joined text. *)
Lemma occurs_join c t l :
  t ∈ l → Str.occurs c t = true → Str.occurs c (Str.join l) = true.
Proof.
  induction 1 as [t l|t u l _ IH]; intros Hc; unfold Str.join in *; simpl;
    rewrite Str.occurs_app, ?Hc, ?IH; by rewrite ?orb_true_r.
Qed.

(** *** Untokenizing *)

(** The tokens in front of the first "$". *)
Fixpoint before_end (tokens : list string) : list string :=
  match tokens with
  | [] => []
  | token :: tokens' =>
      if decide (token = "$") then [] else token :: before_end tokens'
  end.

(** [untokenize] in the words of its description: the tokens up to the first
    "$", the "^" tokens left out, joined. *)
Definition untokenize_spec (tokens : list string) : string :=
  Str.join (filter (λ token, token ≠ "^") (before_end tokens)).

Lemma untokenize_loop_spec smi tokens :
  untokenize_loop smi tokens = smi +:+ untokenize_spec tokens.
Proof.
  unfold untokenize_spec.
  revert smi; induction tokens as [|token tokens IH]; intros smi; simpl.
  { by rewrite Str.app_nil_r. }
  case_decide; [by rewrite Str.app_nil_r|].
  case_decide.
  - rewrite filter_cons_True by done. rewrite IH.
    unfold Str.join; simpl. by rewrite Str.app_assoc.
  - rewrite filter_cons_False by naive_solver. apply IH.
Qed.

Lemma before_end_id tokens :
  Forall (λ token, token ≠ "$") tokens → before_end tokens = tokens.
Proof.
  induction 1 as [|token tokens Ht _ IH]; cbn [before_end]; [done|].
  rewrite decide_False by done. by rewrite IH.
Qed.

Lemma filter_begin_id (tokens : list string) :
  Forall (λ token, token ≠ "^") tokens →
  filter (λ token, token ≠ "^") tokens = tokens.
Proof.
  induction 1 as [|token tokens Ht _ IH]; [done|].
  rewrite filter_cons_True by done. by rewrite IH.
Qed.

(** *** Bracket groups *)

(** Whether a text ends inside a bracket group that still waits for its "]";
    [inside] is the state at the start of the text. *)
Fixpoint unclosed (inside : bool) (s : string) : bool :=
  match s with
  | "" => inside
  | String c s' =>
      if inside then unclosed (negb (bool_decide (c = "]"%char))) s'
      else unclosed (bool_decide (c = "["%char)) s'
  end.

Lemma re_split_match p c s k :
  p (String c s) = Some (S k) →
  re_split p (String c s) =
  "" :: String c (Str.take k s) :: re_split p (Str.drop k s).
Proof. intros Hp. simp re_split. by rewrite Hp. Qed.

Lemma re_split_skip p c s :
  p (String c s) = None →
  re_split p (String c s) = push_front c (re_split p s).
Proof. intros Hp. simp re_split. by rewrite Hp. Qed.

Lemma push_front_app c l k : l ≠ [] → push_front c (l ++ k) = push_front c l ++ k.
Proof. by destruct l. Qed.

Lemma close_bracket_app s t n :
  close_bracket s = Some n →
  close_bracket (s +:+ t) = Some n ∧ 1 ≤ n ≤ String.length s.
Proof.
  revert n; induction s as [|c s IH]; intros n; [done|].
  rewrite Str.app_cons. simpl.
  case_decide; [intros [= <-]; split; [done | lia]|].
  destruct (close_bracket s) as [j|]; [|done]. intros [= <-].
  destruct (IH j eq_refl) as [-> ?]. simpl. split; [done | lia].
Qed.

Lemma take_group body post :
  Str.take (S (String.length body)) (body +:+ String "]" post) = body +:+ "]".
Proof. induction body as [|c body IH]; [done|]. simpl in *. by rewrite IH. Qed.

Lemma drop_group body post :
  Str.drop (S (String.length body)) (body +:+ String "]" post) = post.
Proof. induction body as [|c body IH]; [done|]. simpl in *. by rewrite IH. Qed.

Lemma close_bracket_body body post :
  Str.occurs "]" body = false →
  close_bracket (body +:+ String "]" post) = Some (S (String.length body)).
Proof.
  induction body as [|c body IH]; [done|].
  rewrite Str.app_cons. simpl. case_decide as Hc; [done|]. intros Hb.
  rewrite decide_False by congruence. by rewrite IH.
Qed.

Lemma unclosed_open s : close_bracket s = None → unclosed true s = true.
Proof.
  induction s as [|c s IH]; [done|]. simpl.
  case_decide; [done|]. rewrite bool_decide_eq_false_2 by done.
  destruct (close_bracket s); [done|]. intros _. by apply IH.
Qed.

Lemma unclosed_close s j :
  close_bracket s = Some j → unclosed true s = unclosed false (Str.drop j s).
Proof.
  revert j; induction s as [|c s IH]; intros j; [done|]. simpl.
  case_decide as Hc.
  - intros [= <-]. by rewrite bool_decide_eq_true_2.
  - rewrite bool_decide_eq_false_2 by done.
    destruct (close_bracket s) as [i|]; [|done]. intros [= <-]. by apply IH.
Qed.

Lemma brackets_cons c s :
  brackets (String c s) =
  if decide (c = "["%char) then S <$> close_bracket s else None.
Proof. destruct c as [[] [] [] [] [] [] [] []]; by destruct (decide _). Qed.

(** A bracket group that starts outside every earlier group is one piece of
    the split, whatever is in it; the text in front and the text behind are
    split as they are on their own. *)
Lemma re_split_brackets_group pre body post :
  unclosed false pre = false → Str.occurs "]" body = false →
  re_split brackets (pre +:+ String "[" (body +:+ String "]" post)) =
  re_split brackets pre
    ++ String "[" (body +:+ "]") :: re_split brackets post.
Proof.
  intros Hpre Hbody.
  remember (String.length pre) as n eqn:Hn.
  assert (String.length pre ≤ n) as Hle by lia. clear Hn.
  revert pre Hle Hpre; induction n as [|n IH]; intros [|c pre] Hle Hpre;
    simpl in Hle; try lia.
  1,2: rewrite Str.app_nil_l, (re_split_match _ _ _ (S (String.length body)))
    by (by simpl; rewrite close_bracket_body);
    by rewrite take_group, drop_group; simp re_split.
  rewrite Str.app_cons.
  pose proof (brackets_cons c pre) as Hb.
  pose proof (brackets_cons c (pre +:+ String "[" (body +:+ String "]" post)))
    as Hb'.
  destruct (decide (c = "["%char)) as [->|Hc].
  - simpl in Hpre. destruct (close_bracket pre) as [j|] eqn:Hj.
    + destruct (close_bracket_app _ (String "[" (body +:+ String "]" post)) _ Hj)
        as [Hj' [? ?]].
      rewrite Hj' in Hb'. destruct j as [|j]; [lia|].
      rewrite (re_split_match _ _ _ _ Hb), (re_split_match _ _ _ _ Hb').
      rewrite Str.take_app_le, Str.drop_app_le by done.
      rewrite IH; [done| |].
      * pose proof (Str.drop_length (S j) pre). lia.
      * by rewrite <- (unclosed_close _ _ Hj).
    + by rewrite unclosed_open in Hpre.
  - simpl in Hpre. rewrite bool_decide_eq_false_2 in Hpre by done.
    rewrite (re_split_skip _ _ _ Hb), (re_split_skip _ _ _ Hb').
    rewrite IH by (done || lia).
    apply push_front_app, re_split_nonempty.
Qed.

(** *** Properties of the tokenizer *)

Lemma untokenize_plain tokens :
  Forall (λ token, token ≠ "^" ∧ token ≠ "$") tokens →
  untokenize tokens = Str.join tokens.
Proof.
  intros Htokens. unfold untokenize.
  rewrite untokenize_loop_spec, Str.app_nil_l. unfold untokenize_spec.
  rewrite before_end_id, filter_begin_id; [done|..];
    (eapply Forall_impl; [exact Htokens|]); by intros token [? ?].
Qed.

(** C1. For every string without "^" and "$", untokenizing the tokens of
    [tokenize(s, with_begin_and_end=False)] gives the string back, and the
    tokens, concatenated, are the string: no character is dropped or
    duplicated. *)
Theorem untokenize_tokenize (s : string) :
  Str.occurs "^" s = false → Str.occurs "$" s = false →
  untokenize (tokenize s false) = s ∧ Str.join (tokenize s false) = s.
Proof.
  intros Hbegin Hend. unfold tokenize.
  pose proof (split_by_join s REGEXP_ORDER) as Hjoin.
  split; [|done]. rewrite untokenize_plain; [done|].
  apply Forall_forall. intros token Hin.
  split; intros ->.
  - pose proof (occurs_join "^" "^" _ Hin eq_refl) as Hocc. congruence.
  - pose proof (occurs_join "$" "$" _ Hin eq_refl) as Hocc. congruence.
Qed.

Lemma untokenize_tokenize_witness :
  Str.occurs "^" "C[NH2+]C%12Cl" = false ∧
  Str.occurs "$" "C[NH2+]C%12Cl" = false ∧
  untokenize (tokenize "C[NH2+]C%12Cl" false) = "C[NH2+]C%12Cl".
Proof.
  split; [reflexivity|]. split; [reflexivity|].
  apply (untokenize_tokenize "C[NH2+]C%12Cl"); reflexivity.
Defined.

(** C5, as stated, fails: in "[[a]" the substring "[a]" is delimited by a "["
    and the next "]", but the token emitted is "[[a]", which starts at the
    first "[". *)
Lemma bracket_substring_not_a_token :
  ¬ (∀ pre body post : string,
       Str.occurs "]" body = false →
       "[" +:+ body +:+ "]" ∈
         tokenize (pre +:+ "[" +:+ body +:+ "]" +:+ post) false).
Proof.
  intros Hclaim. specialize (Hclaim "[" "a" "" eq_refl).
  change ("[a]" ∈ ["[[a]"]) in Hclaim.
  by apply list_elem_of_singleton in Hclaim.
Qed.

(** C5, amended. A substring delimited by a "[" that lies outside every
    earlier bracket group and the next "]" is emitted as one token, whatever
    it contains, between the tokens of the text in front of it and the tokens
    of the text behind it; and at every category the matched pieces are
    emitted as they are, only the unmatched pieces being split by the
    categories of lower precedence. *)
Theorem bracket_group_atomic (pre body post : string) :
  unclosed false pre = false → Str.occurs "]" body = false →
  tokenize (pre +:+ "[" +:+ body +:+ "]" +:+ post) false =
    tokenize pre false ++ ["[" +:+ body +:+ "]"] ++ tokenize post false
  ∧ ∀ smiles name regexps,
      split_by smiles (name :: regexps) =
      weave (λ split, split_by split regexps) true
            (re_split (REGEXPS name) smiles).
Proof.
  intros Hpre Hbody. split; [|apply split_by_cons].
  unfold tokenize, REGEXP_ORDER. rewrite !split_by_cons.
  change (pre +:+ "[" +:+ body +:+ "]" +:+ post)
    with (pre +:+ String "[" (body +:+ String "]" post)).
  cbn [REGEXPS]. rewrite re_split_brackets_group by done.
  rewrite weave_app. f_equal.
  pose proof (re_split_length brackets pre) as Hodd.
  rewrite <- Nat.negb_even in Hodd. apply negb_true_iff in Hodd.
  by rewrite Hodd.
Qed.

Lemma bracket_group_atomic_witness :
  unclosed false "C" = false ∧ Str.occurs "]" "Cl%12" = false ∧
  tokenize "C[Cl%12]C" false = ["C"; "[Cl%12]"; "C"].
Proof.
  split; [reflexivity|]. split; [reflexivity|].
  exact (proj1 (bracket_group_atomic "C" "Cl%12" "C" eq_refl eq_refl)).
Defined.

Example tokenize_charged_nitrogen :
  tokenize "C[NH2+]C" false = ["C"; "[NH2+]"; "C"].
Proof. reflexivity. Qed.

(** C6. [untokenize] returns the tokens concatenated in order, every "^"
    token skipped and everything from the first "$" token on discarded; when
    no token is a sentinel it concatenates them all. *)
Theorem untokenize_meaning (tokens : list string) :
  untokenize tokens = untokenize_spec tokens
  ∧ (∀ pre post, "$" ∉ pre → tokens = pre ++ "$" :: post →
       untokenize tokens = Str.join (filter (λ token, token ≠ "^") pre))
  ∧ ("$" ∉ tokens →
       untokenize tokens = Str.join (filter (λ token, token ≠ "^") tokens))
  ∧ ("$" ∉ tokens → "^" ∉ tokens → untokenize tokens = Str.join tokens).
Proof.
  assert (Hspec : ∀ l, untokenize l = untokenize_spec l).
  { intros l. unfold untokenize.
    by rewrite untokenize_loop_spec, Str.app_nil_l. }
  assert (Hcut : ∀ pre post, "$" ∉ pre →
            before_end (pre ++ "$" :: post) = pre).
  { intros pre post. induction pre as [|t pre IH]; intros Hpre; [done|].
    apply not_elem_of_cons in Hpre as [? ?]. cbn [app before_end].
    rewrite decide_False by done. by rewrite IH. }
  assert (Hall : ∀ l, "$" ∉ l → before_end l = l).
  { intros l Hl. apply before_end_id, Forall_forall. by intros t Ht ->. }
  split; [apply Hspec|]. split; [|split].
  - intros pre post Hpre ->. rewrite Hspec. unfold untokenize_spec.
    by rewrite Hcut.
  - intros Hend. rewrite Hspec. unfold untokenize_spec. by rewrite Hall.
  - intros Hend Hbegin. apply untokenize_plain, Forall_forall.
    intros t Ht. split; by intros ->.
Qed.

Lemma untokenize_meaning_witness :
  untokenize ["^"; "C"; "^"; "Cl"; "$"; "N"; "$"] = "CCl"
  ∧ untokenize ["C"; "Cl"] = "CCl".
Proof.
  split.
  - apply (proj1 (proj2 (untokenize_meaning
                           ["^"; "C"; "^"; "Cl"; "$"; "N"; "$"]))
             ["^"; "C"; "^"; "Cl"] ["N"; "$"]); [|reflexivity].
    apply (bool_decide_unpack _). reflexivity.
  - apply (proj2 (proj2 (proj2 (untokenize_meaning ["C"; "Cl"]))));
      apply (bool_decide_unpack _); reflexivity.
Defined.

(** C10. Every token of [tokenize(s, with_begin_and_end=False)] is a
    non-empty string; an empty piece of a split gives no token at all. *)
Theorem tokenize_tokens_nonempty (s : string) :
  Forall (λ token, token ≠ "") (tokenize s false)
  ∧ ∀ regexps, split_by "" regexps = [].
Proof.
  split; [apply split_by_nonempty|].
  induction regexps as [|name regexps IH]; [done|].
  rewrite split_by_cons. simp re_split. simpl. by rewrite IH.
Qed.

(** *** Further properties of the tokenizer *)

Lemma untokenize_spec_eq tokens : untokenize tokens = untokenize_spec tokens.
Proof. unfold untokenize. by rewrite untokenize_loop_spec, Str.app_nil_l. Qed.

Lemma before_end_app_end tokens post :
  before_end (tokens ++ "$" :: post) = before_end tokens.
Proof.
  induction tokens as [|t tokens IH]; [done|].
  cbn [app before_end]. case_decide; [done|]. by rewrite IH.
Qed.

Lemma before_end_app tokens tokens' :
  "$" ∉ tokens → before_end (tokens ++ tokens') = tokens ++ before_end tokens'.
Proof.
  induction tokens as [|t tokens IH]; [done|].
  intros [? ?]%not_elem_of_cons. cbn [app before_end].
  rewrite decide_False by done. by rewrite IH.
Qed.

Lemma join_length_app s t :
  String.length (s +:+ t) = String.length s + String.length t.
Proof. induction s as [|c s IH]; [done|]. simpl. by rewrite IH. Qed.

(** The sentinels [tokenize] puts around the tokens do not show in what
    [untokenize] returns: with or without them, for every string, the two
    token lists untokenize to the same string. *)
Theorem untokenize_ignores_frame (s : string) :
  untokenize (tokenize s true) = untokenize (tokenize s false).
Proof.
  rewrite !untokenize_spec_eq. unfold untokenize_spec, tokenize.
  cbn [app before_end]. rewrite decide_False by done.
  rewrite before_end_app_end.
  by rewrite filter_cons_False by (by intros Hne; apply Hne).
Qed.

Lemma untokenize_spec_shorter tokens :
  String.length (untokenize_spec tokens) ≤ String.length (Str.join tokens)
  ∧ ("^" ∈ tokens ∨ "$" ∈ tokens →
     String.length (untokenize_spec tokens) < String.length (Str.join tokens)).
Proof.
  unfold untokenize_spec.
  induction tokens as [|t tokens [IHle IHlt]]; cbn [before_end].
  { split; [done|]. intros [H|H]; by apply elem_of_nil in H. }
  change (Str.join (t :: tokens)) with (t +:+ Str.join tokens).
  rewrite join_length_app.
  destruct (decide (t = "$")) as [->|Hend].
  { split; simpl; lia. }
  destruct (decide (t = "^")) as [->|Hbegin].
  { rewrite filter_cons_False by (by intros Hne; apply Hne).
    split; simpl; lia. }
  rewrite filter_cons_True by done.
  change (Str.join (t :: ?l)) with (t +:+ Str.join l).
  rewrite join_length_app. split; [lia|].
  intros [H|H]; apply elem_of_cons in H as [?|H]; try done;
    (assert (String.length
               (Str.join (filter (λ token, token ≠ "^") (before_end tokens)))
             < String.length (Str.join tokens)) by auto); lia.
Qed.

(** Untokenizing the tokens of a string gives the string back exactly when no
    token is a sentinel: a "^" or "$" of the string that stands outside
    brackets becomes a token of its own and is lost (with everything behind
    it, for "$"), one inside a bracket group stays in its token. *)
Theorem untokenize_tokenize_iff (s : string) :
  untokenize (tokenize s false) = s
  ↔ ("^" ∉ tokenize s false) ∧ ("$" ∉ tokenize s false).
Proof.
  pose proof (split_by_join s REGEXP_ORDER) as Hjoin.
  unfold tokenize. split.
  - intros Hround.
    destruct (untokenize_spec_shorter (split_by s REGEXP_ORDER)) as [_ Hlt].
    rewrite <- untokenize_spec_eq, Hround, Hjoin in Hlt.
    split; intros Hin; (assert (String.length s < String.length s) by auto);
      lia.
  - intros [Hbegin Hend]. rewrite untokenize_plain; [done|].
    apply Forall_forall. intros t Ht. split; by intros ->.
Qed.

Example untokenize_tokenize_sentinel_in_brackets :
  untokenize (tokenize "C[$^]C" false) = "C[$^]C"
  ∧ untokenize (tokenize "C$C^" false) = "C".
Proof. split; reflexivity. Qed.

Lemma join_length_nonempty tokens :
  Forall (λ token, token ≠ "") tokens →
  length tokens ≤ String.length (Str.join tokens).
Proof.
  induction 1 as [|t tokens Ht _ IH]; [done|].
  change (Str.join (t :: tokens)) with (t +:+ Str.join tokens).
  rewrite join_length_app. destruct t; [done|]. simpl. lia.
Qed.

(** A string gives at most as many tokens as it has characters, and two more
    with the sentinels. *)
Theorem tokenize_length (s : string) :
  length (tokenize s false) ≤ String.length s
  ∧ length (tokenize s true) = length (tokenize s false) + 2.
Proof.
  unfold tokenize. split.
  - rewrite <- (split_by_join s REGEXP_ORDER) at 2.
    apply join_length_nonempty, split_by_nonempty.
  - cbn [app length]. rewrite length_app. simpl. lia.
Qed.

(** [untokenize] of two lists in a row is the concatenation of what it gives
    for each, as long as the first has no end token; after an end token
    nothing counts. *)
Theorem untokenize_app (tokens tokens' : list string) :
  ("$" ∉ tokens →
     untokenize (tokens ++ tokens') = untokenize tokens +:+ untokenize tokens')
  ∧ ("$" ∈ tokens → untokenize (tokens ++ tokens') = untokenize tokens).
Proof.
  rewrite !untokenize_spec_eq. unfold untokenize_spec. split.
  - intros Hend. rewrite before_end_app by done.
    rewrite (before_end_id tokens)
      by (apply Forall_forall; by intros t Ht ->).
    by rewrite filter_app, Str.join_app.
  - intros (l1 & l2 & -> & Hl1)%list_elem_of_split_l.
    by rewrite <- app_assoc, <- !app_comm_cons, !before_end_app_end.
Qed.

Lemma untokenize_app_witness :
  untokenize (["^"; "C"] ++ ["Cl"; "$"; "N"]) = "CCl"
  ∧ untokenize (["C"; "$"] ++ ["Cl"]) = "C".
Proof.
  split.
  - apply (proj1 (untokenize_app ["^"; "C"] ["Cl"; "$"; "N"])).
    apply (bool_decide_unpack _). reflexivity.
  - apply (proj2 (untokenize_app ["C"; "$"] ["Cl"])).
    apply (bool_decide_unpack _). reflexivity.
Defined.

(** *** The vocabulary *)

(** What a token can be: one character, a bracket group without a "]"
    inside, a "%" with two digits, or one of the digraphs "Br" and "Cl". *)
Definition token_shape (token : string) : Prop :=
  (∃ c, token = String c "")
  ∨ (∃ body, Str.occurs "]" body = false ∧ token = "[" +:+ body +:+ "]")
  ∨ (∃ d1 d2, is_digit d1 = true ∧ is_digit d2 = true
              ∧ token = String "%" (String d1 (String d2 "")))
  ∨ token = "Br" ∨ token = "Cl".

(** Every match is the text the pattern matched where it was found. *)
Lemma re_split_matched_spec p s :
  Forall (λ m, ∃ c rest k, p (String c rest) = Some (S k)
                           ∧ m = String c (Str.take k rest))
         (matched true (re_split p s)).
Proof.
  funelim (re_split p s); simp re_split; rewrite ?Heq; simpl; [done|..].
  - by rewrite push_front_matched.
  - constructor; [|done]. eauto.
  - by rewrite push_front_matched.
Qed.

Lemma close_bracket_take s k :
  close_bracket s = Some k →
  ∃ body, Str.occurs "]" body = false ∧ Str.take k s = body +:+ "]".
Proof.
  revert k; induction s as [|c s IH]; intros k; [done|]. simpl.
  case_decide as Hc.
  - intros [= <-]. exists "". by subst.
  - destruct (close_bracket s) as [j|]; [|done]. intros [= <-].
    destruct (IH j eq_refl) as (body & Hbody & Htake).
    exists (String c body). simpl. rewrite Htake.
    by rewrite decide_False by congruence.
Qed.

Lemma brackets_shape c rest k :
  brackets (String c rest) = Some (S k) →
  ∃ body, Str.occurs "]" body = false
          ∧ String c (Str.take k rest) = "[" +:+ body +:+ "]".
Proof.
  rewrite brackets_cons. case_decide as Hc; [|done]. subst c.
  destruct (close_bracket rest) as [j|] eqn:Hj; [|done]. intros [= <-].
  destruct (close_bracket_take _ _ Hj) as (body & ? & ->). eauto.
Qed.

Lemma two_ring_nums_shape c rest k :
  two_ring_nums (String c rest) = Some (S k) →
  ∃ d1 d2, is_digit d1 = true ∧ is_digit d2 = true
           ∧ String c (Str.take k rest) = String "%" (String d1 (String d2 "")).
Proof.
  unfold two_ring_nums.
  destruct (decide (c = "%"%char)) as [->|Hc].
  - destruct rest as [|d1 [|d2 rest]]; try done.
    destruct (is_digit d1) eqn:H1, (is_digit d2) eqn:H2; try done.
    intros [= <-]. by exists d1, d2.
  - destruct c as [[] [] [] [] [] [] [] []]; done.
Qed.

Lemma brcl_shape c rest k :
  brcl (String c rest) = Some (S k) →
  String c (Str.take k rest) = "Br" ∨ String c (Str.take k rest) = "Cl".
Proof.
  unfold brcl. destruct rest as [|d rest].
  { destruct c as [[] [] [] [] [] [] [] []]; done. }
  destruct (decide (c = "B"%char ∧ d = "r"%char)) as [[-> ->]|Hbr].
  { intros [= <-]. by left. }
  destruct (decide (c = "C"%char ∧ d = "l"%char)) as [[-> ->]|Hcl].
  { intros [= <-]. by right. }
  destruct c as [[] [] [] [] [] [] [] []]; try done;
    destruct d as [[] [] [] [] [] [] [] []]; try done;
    exfalso; (by apply Hbr) || (by apply Hcl).
Qed.

(** Every token of a string has one of the five shapes, whatever the string:
    the vocabulary is the single characters, the bracket groups, the hundred
    two-digit ring labels and the two digraphs. *)
Theorem tokenize_vocabulary (s : string) :
  Forall token_shape (tokenize s false).
Proof.
  unfold tokenize, REGEXP_ORDER.
  assert (Hchars : ∀ u, Forall token_shape (split_by u [])).
  { intros u. induction u as [|c u IH]; constructor; [|done].
    left. by exists c. }
  assert (Hlevel : ∀ name regexps,
            (∀ c rest k, REGEXPS name (String c rest) = Some (S k) →
                         token_shape (String c (Str.take k rest))) →
            (∀ u, Forall token_shape (split_by u regexps)) →
            ∀ u, Forall token_shape (split_by u (name :: regexps))).
  { intros name regexps Hname Hsub u. rewrite split_by_cons.
    apply weave_Forall; [done|].
    eapply Forall_impl; [apply re_split_matched_spec|].
    intros m (c & rest & k & Hp & ->). by apply Hname. }
  apply Hlevel; [|apply Hlevel; [|apply Hlevel; [|done]]]; simpl.
  - intros c rest k (body & ? & ->)%brackets_shape. right; left. eauto.
  - intros c rest k (d1 & d2 & ? & ? & ->)%two_ring_nums_shape.
    right; right; left. eauto.
  - intros c rest k [-> | ->]%brcl_shape; unfold token_shape; tauto.
Qed.

(** *** Matches are never split *)

(** No match of [p] starts anywhere in the text. *)
Fixpoint free (p : pattern) (s : string) : bool :=
  match s with
  | "" => true
  | String c s' =>
      match p s with
      | Some (S _) => false
      | _ => true
      end && free p s'
  end.

(** A match does not depend on the text behind it. *)
Definition stable (p : pattern) : Prop :=
  ∀ x y k, p x = Some k → p (x +:+ y) = Some k.

Lemma brackets_stable : stable brackets.
Proof.
  intros [|c x] y k; [done|]. rewrite Str.app_cons, !brackets_cons.
  case_decide; [|done].
  destruct (close_bracket x) as [j|] eqn:Hj; [|done]. intros [= <-].
  by destruct (close_bracket_app _ y _ Hj) as [-> _].
Qed.

Lemma two_ring_nums_stable : stable two_ring_nums.
Proof.
  intros [|c [|d1 [|d2 x]]] y k; try done;
    destruct c as [[] [] [] [] [] [] [] []]; done.
Qed.

Lemma brcl_stable : stable brcl.
Proof.
  intros [|c [|d x]] y k; try done;
    destruct c as [[] [] [] [] [] [] [] []]; done.
Qed.

Lemma REGEXPS_stable name : stable (REGEXPS name).
Proof.
  destruct name; [apply brackets_stable | apply two_ring_nums_stable
                 | apply brcl_stable].
Qed.

Lemma free_app_r p x y : free p (x +:+ y) = true → free p y = true.
Proof.
  induction x as [|c x IH]; [done|].
  rewrite Str.app_cons. simpl. intros [_ ?]%andb_true_iff. auto.
Qed.

Lemma free_app_l p x y : stable p → free p (x +:+ y) = true → free p x = true.
Proof.
  intros Hp. induction x as [|c x IH]; [done|].
  rewrite Str.app_cons. simpl. intros [Hc Hx]%andb_true_iff.
  rewrite IH by done. rewrite andb_true_r.
  destruct (p (String c x)) as [[|k]|] eqn:Hpx; try done.
  apply (Hp _ y) in Hpx. rewrite Str.app_cons in Hpx. by rewrite Hpx in Hc.
Qed.

(** A piece of a list of strings is a part of their concatenation. *)
Lemma join_elem u (l : list string) :
  u ∈ l → ∃ a b, Str.join l = a +:+ u +:+ b.
Proof.
  induction 1 as [u l|u v l _ (a & b & IH)].
  - by exists "", (Str.join l).
  - exists (v +:+ a), b.
    change (Str.join (v :: l)) with (v +:+ Str.join l).
    by rewrite IH, Str.app_assoc.
Qed.

Lemma free_elem p u (l : list string) :
  stable p → u ∈ l → free p (Str.join l) = true → free p u = true.
Proof.
  intros Hp (a & b & ->)%join_elem Hfree.
  by apply free_app_r, free_app_l in Hfree.
Qed.

Lemma matched_elem b u (l : list string) : u ∈ matched b l → u ∈ l.
Proof.
  revert b; induction l as [|x l IH]; intros b; simpl; [done|].
  intros [Hu|Hu]%elem_of_app.
  - destruct b; [by apply elem_of_nil in Hu|].
    apply list_elem_of_singleton in Hu as ->. by left.
  - right. by eapply IH.
Qed.

Lemma push_front_unmatched c u l :
  matched false (push_front c (u :: l)) = String c u :: matched true l.
Proof. done. Qed.

(** The unmatched pieces of a split hold no match. *)
Lemma re_split_free p s :
  stable p → Forall (λ u, free p u = true) (matched false (re_split p s)).
Proof.
  intros Hp.
  assert (Hskip : ∀ c s,
            match p (String c s) with Some (S _) => False | _ => True end →
            Forall (λ u, free p u = true) (matched false (re_split p s)) →
            Forall (λ u, free p u = true)
                   (matched false (push_front c (re_split p s)))).
  { clear s. intros c s Hc Hs.
    pose proof (re_split_join p s) as Hjoin.
    destruct (re_split p s) as [|u l] eqn:Hsplit.
    { by destruct (re_split_nonempty p s). }
    rewrite push_front_unmatched. simpl in Hs.
    apply Forall_cons in Hs as [Hu Hl]. constructor; [|done].
    simpl. rewrite Hu, andb_true_r.
    destruct (p (String c u)) as [[|k]|] eqn:Hpu; try done.
    apply (Hp _ (Str.join l)) in Hpu.
    change (Str.join (u :: l)) with (u +:+ Str.join l) in Hjoin.
    rewrite Str.app_cons, Hjoin in Hpu. by rewrite Hpu in Hc. }
  funelim (re_split p s); simp re_split; rewrite ?Heq; simpl.
  - by constructor.
  - apply Hskip; [by rewrite Heq | by apply H].
  - constructor; [done|]. by apply H.
  - apply Hskip; [by rewrite Heq | by apply H].
Qed.

(** A token that is one digit. *)
Definition is_digit_token (token : string) : bool :=
  match token with
  | String d "" => is_digit d
  | _ => false
  end.

(** The tokens at the head of the list spell, character by character, a
    digraph or a two-digit ring label. *)
Definition split_match (tokens : list string) : bool :=
  match tokens with
  | t1 :: t2 :: tokens' =>
      bool_decide (t1 = "B" ∧ t2 = "r")
      || bool_decide (t1 = "C" ∧ t2 = "l")
      || (bool_decide (t1 = "%") && is_digit_token t2
          && match tokens' with
             | t3 :: _ => is_digit_token t3
             | [] => false
             end)
  | _ => false
  end.

(** Nowhere in the list. *)
Fixpoint unsplit (tokens : list string) : bool :=
  match tokens with
  | [] => true
  | _ :: tokens' => negb (split_match tokens) && unsplit tokens'
  end.

(** A token of two characters or more. *)
Definition long (token : string) : Prop := 2 ≤ String.length token.

Lemma split_match_long m l : long m → split_match (m :: l) = false.
Proof.
  unfold long. destruct l as [|t2 l]; [done|]. simpl. intros Hm.
  rewrite (bool_decide_eq_false_2 (m = "B" ∧ _))
    by (intros [-> _]; simpl in Hm; lia).
  rewrite (bool_decide_eq_false_2 (m = "C" ∧ _))
    by (intros [-> _]; simpl in Hm; lia).
  by rewrite (bool_decide_eq_false_2 (m = "%"))
    by (intros ->; simpl in Hm; lia).
Qed.

Lemma is_digit_token_long m : long m → is_digit_token m = false.
Proof. unfold long. by destruct m as [|c [|d m]]; simpl; [lia..|]. Qed.

Lemma unsplit_glue a m b :
  long m → unsplit a = true → unsplit b = true →
  unsplit (a ++ m :: b) = true.
Proof.
  intros Hm Ha Hb. induction a as [|t1 a IH].
  { cbn [app unsplit]. by rewrite split_match_long, Hb. }
  cbn [unsplit] in Ha. apply andb_true_iff in Ha as [Ht1 Ha].
  rewrite <- app_comm_cons. cbn [unsplit]. rewrite IH, andb_true_r by done.
  apply negb_true_iff. apply negb_true_iff in Ht1.
  pose proof (is_digit_token_long m Hm) as Hdigit.
  destruct a as [|t2 [|t3 a]]; cbn [app split_match] in *.
  - rewrite (bool_decide_eq_false_2 (_ ∧ m = "r"))
      by (intros [_ ->]; unfold long in Hm; simpl in Hm; lia).
    rewrite (bool_decide_eq_false_2 (_ ∧ m = "l"))
      by (intros [_ ->]; unfold long in Hm; simpl in Hm; lia).
    by rewrite Hdigit, andb_false_r.
  - apply orb_false_iff in Ht1 as [-> _].
    by rewrite Hdigit, andb_false_r.
  - done.
Qed.

(** The tokens woven from pieces with unsplit tokens and long matches. *)
Lemma weave_unsplit sub b l :
  Forall (λ u, unsplit (sub u) = true) (matched (negb b) l) →
  Forall long (matched b l) →
  unsplit (weave sub b l) = true
  ∧ (b = false → match weave sub b l with
                 | [] => True
                 | m :: _ => long m
                 end).
Proof.
  revert b; induction l as [|x l IH]; intros b; [done|].
  destruct b; cbn [matched weave negb app].
  - rewrite Forall_cons. intros [Hx Hsub] Hlong.
    destruct (IH false) as [Hrest Hhead]; [done..|].
    split; [|done]. specialize (Hhead eq_refl).
    destruct (weave sub false l) as [|m rest] eqn:Hw.
    + by rewrite app_nil_r.
    + cbn [unsplit] in Hrest. apply andb_true_iff in Hrest as [_ Hrest].
      by apply unsplit_glue.
  - rewrite Forall_cons. intros Hsub [Hm Hlong].
    destruct (IH true) as [Hrest _]; [done..|].
    split; [|done]. cbn [unsplit].
    by rewrite split_match_long, Hrest.
Qed.

Lemma REGEXPS_long name s :
  Forall long (matched true (re_split (REGEXPS name) s)).
Proof.
  eapply Forall_impl; [apply re_split_matched_spec|].
  intros m (c & rest & k & Hp & ->). unfold long.
  destruct name; simpl in Hp.
  - apply brackets_shape in Hp as (body & _ & ->).
    rewrite Str.app_cons, Str.app_nil_l. simpl.
    rewrite join_length_app. simpl. lia.
  - apply two_ring_nums_shape in Hp as (d1 & d2 & _ & _ & ->). simpl. lia.
  - apply brcl_shape in Hp as [-> | ->]; simpl; lia.
Qed.

Lemma chars_unsplit u :
  free two_ring_nums u = true → free brcl u = true →
  unsplit (Str.chars u) = true.
Proof.
  induction u as [|c u IH]; [done|].
  cbn [free]. intros [Hring Hu]%andb_true_iff [Hbrcl Hu']%andb_true_iff.
  cbn [Str.chars unsplit]. rewrite IH, andb_true_r by done.
  apply negb_true_iff.
  destruct u as [|d u]; [done|]. cbn [Str.chars split_match].
  apply orb_false_iff. split; [apply orb_false_iff; split|].
  - apply bool_decide_eq_false_2. intros [[= ->] [= ->]]. done.
  - apply bool_decide_eq_false_2. intros [[= ->] [= ->]]. done.
  - destruct (decide (c = "%"%char)) as [->|Hc].
    + destruct u as [|d2 u]; [by rewrite andb_false_r|].
      simpl in *. destruct (is_digit d), (is_digit d2); done.
    + rewrite bool_decide_eq_false_2; [done|]. by intros [= ->].
Qed.

(** A digraph or a two-digit ring label never comes out in pieces: nowhere
    in the tokens of a string do the one-character tokens "B", "r" or
    "C", "l" follow each other, nor "%" and two digits. *)
Theorem tokenize_never_splits (s : string) (before after : list string) :
  tokenize s false = before ++ after →
  (∀ rest, after ≠ "B" :: "r" :: rest)
  ∧ (∀ rest, after ≠ "C" :: "l" :: rest)
  ∧ (∀ d1 d2 rest, is_digit d1 = true → is_digit d2 = true →
       after ≠ "%" :: String d1 "" :: String d2 "" :: rest).
Proof.
  intros Htokens.
  assert (Hlevel : ∀ name regexps,
            (∀ u, free (REGEXPS name) u = true →
                  unsplit (split_by u regexps) = true) →
            ∀ u, unsplit (split_by u (name :: regexps)) = true).
  { intros name regexps Hsub u. rewrite split_by_cons.
    apply weave_unsplit; [|apply REGEXPS_long]. simpl.
    eapply Forall_impl; [apply re_split_free, REGEXPS_stable|]. done. }
  assert (Hfree : ∀ name regexps q u,
            stable q → free q u = true →
            (∀ v, free q v = true → free (REGEXPS name) v = true →
                  unsplit (split_by v regexps) = true) →
            unsplit (split_by u (name :: regexps)) = true).
  { intros name regexps q u Hq Hu Hsub. rewrite split_by_cons.
    apply weave_unsplit; [|apply REGEXPS_long]. simpl.
    apply Forall_forall. intros v Hv. apply Hsub.
    - apply (free_elem q v (re_split (REGEXPS name) u)); [done| |].
      + by apply matched_elem in Hv.
      + by rewrite re_split_join.
    - pose proof (re_split_free (REGEXPS name) u (REGEXPS_stable name)) as Hall.
      by eapply Forall_forall in Hall. }
  assert (Hall : unsplit (tokenize s false) = true).
  { unfold tokenize, REGEXP_ORDER. apply Hlevel. intros u _.
    apply Hlevel. intros v Hv.
    apply (Hfree BrCl [] two_ring_nums v two_ring_nums_stable Hv).
    intros w Hring Hbrcl. by apply chars_unsplit. }
  rewrite Htokens in Hall. clear Htokens.
  assert (Hafter : split_match after = false).
  { induction before as [|t before IH]; simpl in Hall.
    - destruct after; [done|]. cbn [unsplit] in Hall.
      by apply andb_true_iff in Hall as [?%negb_true_iff _].
    - apply andb_true_iff in Hall as [_ ?]. auto. }
  split; [|split].
  - by intros rest ->.
  - by intros rest ->.
  - intros d1 d2 rest H1 H2 ->. simpl in Hafter. by rewrite H1, H2 in Hafter.
Qed.

Lemma tokenize_never_splits_witness :
  tokenize "CCl%12" false = ["C"] ++ ["Cl"; "%12"]
  ∧ ["Cl"; "%12"] ≠ ["C"; "l"; "%12"].
Proof.
  split; [reflexivity|].
  apply (proj1 (proj2 (tokenize_never_splits "CCl%12" ["C"] ["Cl"; "%12"]
                         eq_refl))).
Defined.

(** *** Brackets left open *)

(** No match of [p] starts anywhere in [u], read with [post] behind it. *)
Fixpoint free_before (p : pattern) (u post : string) : bool :=
  match u with
  | "" => true
  | String c u' =>
      match p (u +:+ post) with
      | Some (S _) => false
      | _ => true
      end && free_before p u' post
  end.

(** The unmatched pieces of a split, each with the text that follows it. *)
Fixpoint unmatched_with_rest (even : bool) (pieces : list string)
    : list (string * string) :=
  match pieces with
  | [] => []
  | x :: pieces' =>
      (if even then [(x, Str.join pieces')] else [])
        ++ unmatched_with_rest (negb even) pieces'
  end.

Lemma re_split_free_before p s :
  Forall (λ '(u, post), free_before p u post = true)
         (unmatched_with_rest true (re_split p s)).
Proof.
  assert (Hskip : ∀ c s,
            match p (String c s) with Some (S _) => False | _ => True end →
            Forall (λ '(u, post), free_before p u post = true)
                   (unmatched_with_rest true (re_split p s)) →
            Forall (λ '(u, post), free_before p u post = true)
                   (unmatched_with_rest true (push_front c (re_split p s)))).
  { clear s. intros c s Hc Hs.
    pose proof (re_split_join p s) as Hjoin.
    destruct (re_split p s) as [|u l] eqn:Hsplit.
    { by destruct (re_split_nonempty p s). }
    cbn [push_front unmatched_with_rest app negb] in *.
    apply Forall_cons in Hs as [Hu Hl]. constructor; [|done].
    cbn [free_before]. rewrite Hu, andb_true_r.
    change (Str.join (u :: l)) with (u +:+ Str.join l) in Hjoin.
    rewrite Str.app_cons, Hjoin. by destruct (p (String c s)) as [[|k]|]. }
  funelim (re_split p s); simp re_split; rewrite ?Heq.
  - by constructor.
  - apply Hskip; [by rewrite Heq | by apply H].
  - cbn [unmatched_with_rest app negb]. constructor; [done|]. by apply H.
  - apply Hskip; [by rewrite Heq | by apply H].
Qed.

Lemma free_before_app_r p x y post :
  free_before p (x +:+ y) post = true → free_before p y post = true.
Proof.
  induction x as [|c x IH]; [done|].
  rewrite Str.app_cons. cbn [free_before]. intros [_ ?]%andb_true_iff. auto.
Qed.

Lemma close_bracket_None s : close_bracket s = None → Str.occurs "]" s = false.
Proof.
  induction s as [|c s IH]; [done|]. simpl.
  case_decide as Hc; [done|]. rewrite decide_False by congruence.
  destruct (close_bracket s); [done|]. auto.
Qed.

Lemma close_bracket_positive s : close_bracket s ≠ Some 0.
Proof.
  destruct s as [|c s]; [done|]. simpl. case_decide; [done|].
  by destruct (close_bracket s).
Qed.

(** The tokens behind every "[" token, with [post] behind them all, hold no
    "]". *)
Fixpoint open_stays_open (tokens : list string) (post : string) : Prop :=
  match tokens with
  | [] => True
  | token :: tokens' =>
      (token = "[" → Str.occurs "]" (Str.join tokens' +:+ post) = false)
      ∧ open_stays_open tokens' post
  end.

Lemma open_stays_open_free tokens post :
  free_before brackets (Str.join tokens) post = true →
  open_stays_open tokens post.
Proof.
  induction tokens as [|t tokens IH]; [done|].
  change (Str.join (t :: tokens)) with (t +:+ Str.join tokens).
  intros Hfree. split; [|by eapply IH, free_before_app_r].
  intros ->. rewrite Str.app_cons, Str.app_nil_l in Hfree.
  cbn [free_before] in Hfree. apply andb_true_iff in Hfree as [Hopen _].
  rewrite Str.app_cons, brackets_cons, decide_True in Hopen by done.
  apply close_bracket_None.
  destruct (close_bracket (Str.join tokens +:+ post)) as [[|k]|] eqn:Hclose;
    [by apply close_bracket_positive in Hclose|done..].
Qed.

Lemma open_stays_open_app a b post :
  open_stays_open a (Str.join b +:+ post) → open_stays_open b post →
  open_stays_open (a ++ b) post.
Proof.
  induction a as [|t a IH]; [done|].
  intros [Ht Ha] Hb. split; [|by apply IH].
  intros Heq. by rewrite Str.join_app, Str.app_assoc, Ht.
Qed.

(** A "[" that comes out as a token of its own is a bracket left open: no
    token behind it holds a "]". *)
Theorem open_bracket_token_never_closed (s : string)
    (before after : list string) :
  tokenize s false = before ++ "[" :: after →
  Forall (λ token, Str.occurs "]" token = false) after.
Proof.
  intros Htokens.
  assert (Hweave : ∀ sub b pieces,
            (∀ u, Str.join (sub u) = u) →
            (∀ u post, free_before brackets u post = true →
                       open_stays_open (sub u) post) →
            Forall (λ '(u, post), free_before brackets u post = true)
                   (unmatched_with_rest b pieces) →
            Forall long (matched b pieces) →
            open_stays_open (weave sub b pieces) "").
  { intros sub b pieces Hjoin Hsub. revert b.
    induction pieces as [|x pieces IH]; intros b; [done|].
    destruct b; cbn [unmatched_with_rest matched weave negb app].
    - rewrite Forall_cons. intros [Hx Hrest] Hlong.
      apply open_stays_open_app; [|by apply IH].
      rewrite Str.app_nil_r, weave_join by done. by apply Hsub.
    - rewrite Forall_cons. intros Hrest [Hx Hlong].
      split; [|by apply IH]. intros ->. by compute in Hx; lia. }
  assert (Hall : open_stays_open (tokenize s false) "").
  { unfold tokenize, REGEXP_ORDER. rewrite split_by_cons.
    apply Hweave.
    - intros u. apply split_by_join.
    - intros u post Hu. apply open_stays_open_free.
      by rewrite split_by_join.
    - apply re_split_free_before.
    - apply (REGEXPS_long Brackets). }
  rewrite Htokens in Hall. clear Htokens.
  induction before as [|t before IH].
  - destruct Hall as [Hopen _]. specialize (Hopen eq_refl).
    rewrite Str.app_nil_r in Hopen.
    apply Forall_forall. intros token Hin.
    destruct (Str.occurs "]" token) eqn:Hocc; [|done].
    by rewrite (occurs_join _ _ _ Hin Hocc) in Hopen.
  - destruct Hall as [_ Hall]. auto.
Qed.

Lemma open_bracket_token_never_closed_witness :
  tokenize "[C]C[N" false = ["[C]"; "C"] ++ "[" :: ["N"]
  ∧ Forall (λ token, Str.occurs "]" token = false) ["N"].
Proof.
  split; [reflexivity|].
  apply (open_bracket_token_never_closed "[C]C[N" ["[C]"; "C"] ["N"]).
  reflexivity.
Defined.

End Tokenizer.

(** ** The session cache ([SparkSessionSingleton]) *)

Module SparkSessionSingleton.

(** A Python dictionary with its insertion order, which [values()] follows:
    the keys with their values, oldest first. *)
Section Dict.

Context {V : Type}.

(** [d[key]], when the key is there *)
Fixpoint dict_get (d : list (string * V)) (key : string) : option V :=
  match d with
  | [] => None
  | (k, v) :: d' => if decide (k = key) then Some v else dict_get d' key
  end.

(** [d[key] = v]: in place for a key that is there, at the end for a new
    one *)
Fixpoint dict_set (d : list (string * V)) (key : string) (v : V)
    : list (string * V) :=
  match d with
  | [] => [(key, v)]
  | (k, w) :: d' =>
      if decide (k = key) then (k, v) :: d' else (k, w) :: dict_set d' key v
  end.

(** [d.values()] *)
Definition dict_values (d : list (string * V)) : list V := d.*2.

End Dict.

(** How a call into the Spark runtime ends. *)
Inductive outcome := Returned | Raised.

(** The Spark runtime is outside the repository: its state is a [world],
    and each call into it is a function of the world.  The calls that [get]
    makes are taken to return; [session.close()], which [cleanup] makes, may
    raise. *)
Section Spark.

Variables world SparkBuilder SparkSession SparkContext : Type.

(** [ps.SparkSession.builder.appName(app_name)] *)
Variable appName : string → world → SparkBuilder * world.
(** [builder.getOrCreate()] *)
Variable getOrCreate : SparkBuilder → world → SparkSession * world.
(** [session.sparkContext] *)
Variable sparkContext : SparkSession → world → SparkContext * world.
(** [context.setLogLevel(level)] *)
Variable setLogLevel : SparkContext → string → world → world.
(** [session.close()]: the attribute is looked up on the session object
    when the call is made, so the call raises (AttributeError) for a session
    object that has no [close]; the runtime it leaves behind comes with how
    it ended. *)
Variable close : SparkSession → world → outcome * world.

(** The class attribute [SESSIONS], and the runtime. *)
Record state := {
  SESSIONS : list (string * (SparkSession * SparkContext));
  spark : world
}.

(** [SparkSessionSingleton.get(app_name, params_func)]; [params_func] is
    [None] or a function called on the builder for what it does to the
    runtime. *)
Definition get (app_name : string)
    (params_func : option (SparkBuilder → world → world)) (st : state)
    : option (SparkSession * SparkContext) * state :=
  let st :=
    if decide (dict_get (SESSIONS st) app_name = None) then
      let '(session, w) := appName app_name (spark st) in
      let w :=
        match params_func with
        | Some f => f session w
        | None => w
        end in
      let '(session, w) := getOrCreate session w in
      let '(context, w) := sparkContext session w in
      let w := setLogLevel context "ERROR" w in
      {| SESSIONS := dict_set (SESSIONS st) app_name (session, context);
         spark := w |}
    else st in
  (dict_get (SESSIONS st) app_name, st).

(** The loop of [cleanup], [for session, _ in ...: session.close()]: a call
    that raises ends it, and the sessions behind are not reached. *)
Fixpoint close_all (sessions : list (SparkSession * SparkContext))
    (w : world) : outcome * world :=
  match sessions with
  | [] => (Returned, w)
  | (session, _) :: sessions =>
      match close session w with
      | (Returned, w) => close_all sessions w
      | (Raised, w) => (Raised, w)
      end
  end.

(** [SparkSessionSingleton.cleanup()]: [cls.SESSIONS = {}] comes after the
    loop, so it is not reached when the loop raises. *)
Definition cleanup (st : state) : outcome * state :=
  match close_all (dict_values (SESSIONS st)) (spark st) with
  | (Returned, w) => (Returned, {| SESSIONS := []; spark := w |})
  | (Raised, w) => (Raised, {| SESSIONS := SESSIONS st; spark := w |})
  end.

Lemma dict_get_set {V} (d : list (string * V)) key v :
  dict_get (dict_set d key v) key = Some v.
Proof.
  induction d as [|[k w] d IH]; simpl.
  - by rewrite decide_True.
  - case_decide; simpl; [by rewrite decide_True|]. by rewrite decide_False.
Qed.

Lemma dict_get_set_ne {V} (d : list (string * V)) key key' v :
  key ≠ key' → dict_get (dict_set d key v) key' = dict_get d key'.
Proof.
  intros Hne. induction d as [|[k w] d IH]; simpl.
  - by rewrite decide_False.
  - case_decide; simpl.
    + subst k. by rewrite !decide_False.
    + case_decide; [done|]. apply IH.
Qed.

Lemma dict_set_keys_new {V} (d : list (string * V)) key v :
  dict_get d key = None → dict_set d key v = d ++ [(key, v)].
Proof.
  induction d as [|[k w] d IH]; simpl; [done|].
  case_decide; [done|]. intros Hd. by rewrite IH.
Qed.

Lemma dict_get_None {V} (d : list (string * V)) key :
  dict_get d key = None ↔ key ∉ d.*1.
Proof.
  induction d as [|[k w] d IH]; simpl.
  - split; [intros _; apply not_elem_of_nil|done].
  - rewrite not_elem_of_cons. destruct (decide (k = key)) as [->|Hk].
    + split; [done|]. by intros [? _].
    + rewrite IH. split; [by intros ?; split; [congruence|]|by intros [_ ?]].
Qed.

(** The outcome of a call for a name that is not cached. *)
Lemma get_miss app_name params_func st :
  dict_get (SESSIONS st) app_name = None →
  ∃ pair w,
    get app_name params_func st
    = (Some pair,
       {| SESSIONS := SESSIONS st ++ [(app_name, pair)]; spark := w |}).
Proof.
  intros Hmiss. unfold get. rewrite decide_True by done.
  destruct (appName app_name (spark st)) as [b w0].
  destruct (getOrCreate b _) as [session w1].
  destruct (sparkContext session w1) as [context w2]. simpl.
  rewrite dict_get_set, dict_set_keys_new by done. eauto.
Qed.

Lemma get_hit app_name params_func st pair :
  dict_get (SESSIONS st) app_name = Some pair →
  get app_name params_func st = (Some pair, st).
Proof.
  intros Hhit. unfold get. rewrite decide_False by congruence.
  by rewrite Hhit.
Qed.


(** [get] leaves the sessions of all other names as they are, and the names
    of the cache stay distinct; a new name goes behind the others. *)
Theorem get_keeps_others app_name params_func st :
  let st' := (get app_name params_func st).2 in
  (∀ other, other ≠ app_name →
     dict_get (SESSIONS st') other = dict_get (SESSIONS st) other)
  ∧ (NoDup (SESSIONS st).*1 → NoDup (SESSIONS st').*1)
  ∧ (∃ new, SESSIONS st' = SESSIONS st ++ new).
Proof.
  intros st'. subst st'.
  destruct (dict_get (SESSIONS st) app_name) as [cached|] eqn:Hget.
  - rewrite (get_hit _ _ _ cached) by done. simpl.
    split; [done|]. split; [done|]. exists []. by rewrite app_nil_r.
  - destruct (get_miss app_name params_func st Hget) as (pair & w & ->).
    simpl. split; [|split].
    + intros other Hother. rewrite <- (dict_set_keys_new _ _ _ Hget).
      by apply dict_get_set_ne.
    + intros Hnodup. rewrite fmap_app. apply NoDup_app.
      split; [done|]. split; [|apply NoDup_singleton].
      intros k Hk [->|[]%elem_of_nil]%elem_of_cons.
      by apply dict_get_None in Hget.
    + eauto.
Qed.




Lemma close_all_app sessions sessions' (w : world) :
  close_all (sessions ++ sessions') w
  = match close_all sessions w with
    | (Returned, w) => close_all sessions' w
    | (Raised, w) => (Raised, w)
    end.
Proof.
  revert w. induction sessions as [|[session context] sessions IH];
    intros w; simpl; [done|].
  by destruct (close session w) as [[] w'].
Qed.

(** [cleanup] forgets the cached sessions only when every [close] returns:
    then the cache is empty and every name, also one that was cached, is new
    to [get].  When the [close] of a session raises, after those before it
    (the older ones) have been closed, [cleanup] raises with it: the
    sessions behind are not closed and the cache is left as it was, so that
    [get] goes on returning the cached pairs.  On an empty cache [cleanup]
    makes no call. *)
Theorem cleanup_resets_or_raises st :
  (SESSIONS st = [] → cleanup st = (Returned, st))
  ∧ (∀ before name pair behind w,
       SESSIONS st = before ++ (name, pair) :: behind →
       close_all (dict_values before) (spark st) = (Returned, w) →
       (close pair.1 w).1 = Raised →
       cleanup st
       = (Raised, {| SESSIONS := SESSIONS st; spark := (close pair.1 w).2 |}))
  ∧ ((cleanup st).1 = Returned →
       SESSIONS (cleanup st).2 = []
       ∧ ∀ app_name params_func,
           ∃ pair w,
             get app_name params_func (cleanup st).2
             = (Some pair, {| SESSIONS := [(app_name, pair)]; spark := w |}))
  ∧ ((cleanup st).1 = Raised →
       SESSIONS st ≠ []
       ∧ SESSIONS (cleanup st).2 = SESSIONS st
       ∧ ∀ app_name params_func pair,
           dict_get (SESSIONS st) app_name = Some pair →
           get app_name params_func (cleanup st).2
           = (Some pair, (cleanup st).2)).
Proof.
  split; [|split; [|split]].
  - destruct st as [sessions w]. simpl. by intros ->.
  - intros before name [session context] behind w Hst Hbefore Hclose.
    unfold cleanup, dict_values. rewrite Hst, fmap_app, close_all_app.
    fold (dict_values before). rewrite Hbefore. simpl in *.
    by destruct (close session w) as [[] w']; simplify_eq/=.
  - unfold cleanup.
    destruct (close_all _ _) as [[] w]; simpl; [intros _|done].
    split; [done|]. intros app_name params_func.
    by destruct (get_miss app_name params_func {| SESSIONS := []; spark := w |})
      as (pair & w' & ->); [|eexists _, _].
  - unfold cleanup.
    destruct (close_all _ _) as [[] w] eqn:Hloop; simpl; [done|intros _].
    split; [|split; [done|]].
    + intros Hempty. by rewrite Hempty in Hloop.
    + intros app_name params_func pair Hcached. by apply get_hit.
Qed.

End Spark.

(** A runtime that logs the calls made into it, with sessions that have no
    [close]: after one [get], [cleanup] raises at its first call and the
    session stays in the cache. *)
Lemma cleanup_resets_or_raises_witness :
  let appName (name : string) (w : list string) := (name, w ++ ["appName"]) in
  let getOrCreate (builder : string) (w : list string) :=
    (builder, w ++ ["getOrCreate"]) in
  let sparkContext (session : string) (w : list string) := (session, w) in
  let setLogLevel (context level : string) (w : list string) :=
    w ++ ["setLogLevel"] in
  let close (session : string) (w : list string) := (Raised, w) in
  let st :=
    (get _ _ _ _ appName getOrCreate sparkContext setLogLevel "app" None
       {| SESSIONS := []; spark := [] |}).2 in
  SESSIONS _ _ _ st = [("app", ("app", "app"))]
  ∧ cleanup _ _ _ close st = (Raised, st).
Proof.
  intros appName getOrCreate sparkContext setLogLevel close st.
  split; [reflexivity|].
  exact (proj1 (proj2 (cleanup_resets_or_raises _ _ _ _
                         appName getOrCreate sparkContext setLogLevel close st))
           [] "app" ("app", "app") [] (spark _ _ _ st)
           eq_refl eq_refl eq_refl).
Defined.

End SparkSessionSingleton.

(** ** The score transformations ([TransformationFactory]) *)

(** The string constants of [ComponentSpecificParametersEnum]: read-only
    properties, so plain constants here. *)
Module ComponentSpecificParametersEnum.
Definition LOW : string := "low".
Definition HIGH : string := "high".
Definition K : string := "k".
Definition TRANSFORMATION : string := "transformation".
Definition SCIKIT : string := "scikit".
Definition CLAB_INPUT_FILE : string := "clab_input_file".
Definition COEF_DIV : string := "coef_div".
Definition COEF_SI : string := "coef_si".
Definition COEF_SE : string := "coef_se".
Definition TRANSFORMATION_TYPE : string := "transformation_type".
Definition DESCRIPTOR_TYPE : string := "descriptor_type".
End ComponentSpecificParametersEnum.

(** The string constants of [TransformationTypeEnum]. *)
Module TransformationTypeEnum.
Definition DOUBLE_SIGMOID : string := "double_sigmoid".
Definition SIGMOID : string := "sigmoid".
Definition REVERSE_SIGMOID : string := "reverse_sigmoid".
Definition RIGHT_STEP : string := "right_step".
Definition STEP : string := "step".
Definition NO_TRANSFORMATION : string := "no_transformation".
End TransformationTypeEnum.

Module Transformation.

(** *** Exceptions *)

(** The exceptions the engine's operations raise. *)
Inductive exn :=
  | KeyError | TypeError | ZeroDivisionError | OverflowError | ValueError.

(** The outcome of a call: a value, or a raised exception. *)
Inductive result (A : Type) : Type :=
  | Ok (a : A)
  | Raise (e : exn).
Arguments Ok {A} a.
Arguments Raise {A} e.

#[export] Instance result_ret : MRet result := λ A, Ok.
#[export] Instance result_bind : MBind result := λ A B f m,
  match m with
  | Ok a => f a
  | Raise e => Raise e
  end.

(** [try: body / except: handler], with a bare [except]. *)
Definition try_except {A} (body : result A) (handler : result A) : result A :=
  match body with
  | Ok a => Ok a
  | Raise _ => handler
  end.

(** [d[key]] *)
Definition getitem {V} (d : gmap string V) (key : string) : result V :=
  match d !! key with
  | Some v => Ok v
  | None => Raise KeyError
  end.

(** *** Numbers *)

(** Python's numbers, as far as the engine uses them: literals, the
    operators, [math.pow], and the cast to [numpy.float32].  Sums, differences
    and products of floats always give a float; [/], [**] and [math.pow] can
    raise ([ZeroDivisionError], [OverflowError]); comparisons give a bool. *)
Class Number := {
  num : Type;
  float32 : Type;
  of_int : Z → num;                      (* an int literal *)
  of_float : float → num;                (* a float literal *)
  py_add : num → num → num;              (* x + y *)
  py_sub : num → num → num;              (* x - y *)
  py_mul : num → num → num;              (* x * y *)
  py_truediv : num → num → result num;   (* x / y *)
  py_pow : num → num → result num;       (* x ** y *)
  math_pow : num → num → result num;     (* math.pow(x, y) *)
  py_le : num → num → bool;              (* x <= y *)
  py_ge : num → num → bool;              (* x >= y *)
  np_float32 : num → float32             (* numpy.float32(x) *)
}.

(** Binary64 arithmetic, the floats of Python, over the [pow] of the C
    library the interpreter is linked with. *)
Section Binary64.

Variable pow : float → float → float.

(** [x / y] on floats *)
Definition float_truediv (x y : float) : result float :=
  if (y =? 0)%float then Raise ZeroDivisionError else Ok (x / y)%float.

(** [x ** y] and [math.pow(x, y)] on floats, for a positive base (the engine
    raises 10 only): 1.0 for a zero exponent, else the result of [pow], an
    infinite result from finite arguments being reported as
    [OverflowError]. *)
Definition float_pow (x y : float) : result float :=
  if (y =? 0)%float then Ok 1%float
  else
    let r := pow x y in
    if is_finite x && is_finite y && is_infinity r then Raise OverflowError
    else Ok r.

(** The float nearest to an integer: the value of an int where a float is
    needed (the ints of the source are 0, 1, 2 and 10). *)
Definition float_of_int (z : Z) : float :=
  SF2Prim (binary_normalize prec emax z 0 false).

(** The binary32 number nearest to a float, ties to even. *)
Definition float32_of_float (x : float) : float :=
  match Prim2SF x with
  | S754_finite s m e => SF2Prim (binary_round 24 128 s m e)
  | _ => x
  end.

Definition binary64 : Number := {|
  num := float;
  float32 := float;
  of_int := float_of_int;
  of_float := id;
  py_add := PrimFloat.add;
  py_sub := PrimFloat.sub;
  py_mul := PrimFloat.mul;
  py_truediv := float_truediv;
  py_pow := float_pow;
  math_pow := float_pow;
  py_le := PrimFloat.leb;
  py_ge := λ x y, PrimFloat.leb y x;
  np_float32 := float32_of_float
|}.

End Binary64.

(** [pow(10, y)] where its value is beyond doubt: 10^n for the integers
    0 <= n <= 22, which are binary64 numbers, and infinity from 309 on, where
    10^y exceeds every binary64 number.  A stand-in for the C function in
    the worked examples, which call it at these arguments only; elsewhere it
    answers nan. *)
Fixpoint pow10_from (rows : nat) (n p : Z) (y : float) : float :=
  match rows with
  | O => nan
  | S rows' =>
      if (y =? float_of_int n)%float then float_of_int p
      else pow10_from rows' (n + 1)%Z (p * 10)%Z y
  end.

Definition pow10_table (x y : float) : float :=
  if (x =? 10)%float then
    if (309 <=? y)%float then infinity else pow10_from 23 0 1 y
  else nan.

(** *** The engine *)

Section Engine.

Context {N : Number}.

(** The values of a parameter dictionary: the name of a transformation, or a
    number. *)
Inductive pyval :=
  | PStr (s : string)
  | PNum (x : num).

(** An operand of an arithmetic operator or a comparison with a number has to
    be a number. *)
Definition as_num (v : pyval) : result num :=
  match v with
  | PNum x => Ok x
  | PStr _ => Raise TypeError
  end.

(** [np.array(values, dtype=np.float32)] *)
Definition np_array_float32 (values : list num) : list float32 :=
  np_float32 <$> values.

Definition no_transformation (predictions : list num)
    (parameters : gmap string pyval) : result (list float32) :=
  Ok (np_array_float32 predictions).

(** [_right_step_formula] of [right_step] *)
Definition _right_step_formula (value : num) (low : pyval) : result num :=
  low ← as_num low;
  if py_ge value low then Ok (of_int 1) else Ok (of_int 0).

Definition right_step (predictions : list num)
    (parameters : gmap string pyval) : result (list float32) :=
  _low ← getitem parameters ComponentSpecificParametersEnum.LOW;
  transformed ← mapM (λ value, _right_step_formula value _low) predictions;
  Ok (np_array_float32 transformed).

(** [_right_step_formula] of [step]; [low <= value <= high] looks at [high]
    only when [low <= value] holds. *)
Definition _step_formula (value : num) (low high : pyval) : result num :=
  low ← as_num low;
  if py_le low value then
    high ← as_num high;
    if py_le value high then Ok (of_int 1) else Ok (of_int 0)
  else Ok (of_int 0).

Definition step (predictions : list num)
    (parameters : gmap string pyval) : result (list float32) :=
  _low ← getitem parameters ComponentSpecificParametersEnum.LOW;
  _high ← getitem parameters ComponentSpecificParametersEnum.HIGH;
  transformed ← mapM (λ value, _step_formula value _low _high) predictions;
  Ok (np_array_float32 transformed).

(** [math.pow(10, (10 * k * (pred_val - (low + high) * 0.5) / (low - high)))] *)
Definition _exp (pred_val : num) (low high k : pyval) : result num :=
  low ← as_num low; high ← as_num high; k ← as_num k;
  q ← py_truediv
        (py_mul (py_mul (of_int 10) k)
                (py_sub pred_val (py_mul (py_add low high) (of_float 0.5))))
        (py_sub low high);
  math_pow (of_int 10) q.

Definition sigmoid_transformation (predictions : list num)
    (parameters : gmap string pyval) : result (list float32) :=
  _low ← getitem parameters ComponentSpecificParametersEnum.LOW;
  _high ← getitem parameters ComponentSpecificParametersEnum.HIGH;
  _k ← getitem parameters ComponentSpecificParametersEnum.K;
  transformed ←
    mapM (λ pred_val,
            e ← _exp pred_val _low _high _k;
            py_truediv (of_int 1) (py_add (of_int 1) e))
         predictions;
  Ok (np_array_float32 transformed).

(** The [try] block of [_reverse_sigmoid_formula]:
    [1 / (1 + 10 ** (k * (value - (high + low) / 2) * 10 / (high - low)))] *)
Definition _reverse_sigmoid_try (value : num) (low high k : pyval)
    : result num :=
  low ← as_num low; high ← as_num high; k ← as_num k;
  m ← py_truediv (py_add high low) (of_int 2);
  q ← py_truediv (py_mul (py_mul k (py_sub value m)) (of_int 10))
                 (py_sub high low);
  e ← py_pow (of_int 10) q;
  py_truediv (of_int 1) (py_add (of_int 1) e).

Definition _reverse_sigmoid_formula (value : num) (low high k : pyval)
    : result num :=
  try_except (_reverse_sigmoid_try value low high k) (Ok (of_int 0)).

Definition reverse_sigmoid_transformation (predictions : list num)
    (parameters : gmap string pyval) : result (list float32) :=
  _low ← getitem parameters ComponentSpecificParametersEnum.LOW;
  _high ← getitem parameters ComponentSpecificParametersEnum.HIGH;
  _k ← getitem parameters ComponentSpecificParametersEnum.K;
  transformed ←
    mapM (λ pred_val, _reverse_sigmoid_formula pred_val _low _high _k)
         predictions;
  Ok (np_array_float32 transformed).

(** [10 ** (coef * (x / coef_div))], the power the double sigmoid is built
    from. *)
Definition pow10_scaled (coef x coef_div : num) : result num :=
  d ← py_truediv x coef_div;
  py_pow (of_int 10) (py_mul coef d).

(** The [try] block of [_double_sigmoid_formula]. *)
Definition _double_sigmoid_try (value : num)
    (low high coef_div coef_si coef_se : pyval) : result num :=
  low ← as_num low; high ← as_num high; coef_div ← as_num coef_div;
  coef_si ← as_num coef_si; coef_se ← as_num coef_se;
  A ← pow10_scaled coef_se value coef_div;
  B1 ← pow10_scaled coef_se value coef_div;
  B2 ← pow10_scaled coef_se low coef_div;
  let B := py_add B1 B2 in
  C1 ← pow10_scaled coef_si value coef_div;
  C2 ← pow10_scaled coef_si value coef_div;
  C3 ← pow10_scaled coef_si high coef_div;
  C ← py_truediv C1 (py_add C2 C3);
  AB ← py_truediv A B;
  Ok (py_sub AB C).

(** One sigmoid of the two the formula subtracts:
    [10 ** (coef * (value / coef_div))
     / (10 ** (coef * (value / coef_div)) + 10 ** (coef * (bound / coef_div)))];
    [A / B] is the one for [coef_se] and [low], [C] the one for [coef_si] and
    [high]. *)
Definition sigmoid_term (coef value bound coef_div : num) : result num :=
  a ← pow10_scaled coef value coef_div;
  b ← pow10_scaled coef bound coef_div;
  py_truediv a (py_add a b).

(** [_double_sigmoid_formula(value, low, high, coef_div=100., coef_si=150.,
    coef_se=150.)]: an argument left out takes its default. *)
Definition _double_sigmoid_formula (value : num) (low high : pyval)
    (coef_div coef_si coef_se : option pyval) : result num :=
  let coef_div := default (PNum (of_float 100)) coef_div in
  let coef_si := default (PNum (of_float 150)) coef_si in
  let coef_se := default (PNum (of_float 150)) coef_se in
  try_except (_double_sigmoid_try value low high coef_div coef_si coef_se)
             (Ok (of_int 0)).

Definition double_sigmoid (predictions : list num)
    (parameters : gmap string pyval) : result (list float32) :=
  _low ← getitem parameters ComponentSpecificParametersEnum.LOW;
  _high ← getitem parameters ComponentSpecificParametersEnum.HIGH;
  _coef_div ← getitem parameters ComponentSpecificParametersEnum.COEF_DIV;
  _coef_si ← getitem parameters ComponentSpecificParametersEnum.COEF_SI;
  _coef_se ← getitem parameters ComponentSpecificParametersEnum.COEF_SE;
  transformed ←
    mapM (λ pred_val,
            _double_sigmoid_formula pred_val _low _high
              (Some _coef_div) (Some _coef_si) (Some _coef_se))
         predictions;
  Ok (np_array_float32 transformed).

(** A transformation function: [(predictions, parameters) -> np.array]. *)
Definition transformation_function : Type :=
  list num → gmap string pyval → result (list float32).

Definition _default_transformation_function_registry
    : gmap string transformation_function :=
  list_to_map
    [ (TransformationTypeEnum.SIGMOID, sigmoid_transformation);
      (TransformationTypeEnum.REVERSE_SIGMOID, reverse_sigmoid_transformation);
      (TransformationTypeEnum.DOUBLE_SIGMOID, double_sigmoid);
      (TransformationTypeEnum.NO_TRANSFORMATION, no_transformation);
      (TransformationTypeEnum.RIGHT_STEP, right_step);
      (TransformationTypeEnum.STEP, step) ].

(** [registry[key]] for a key taken from a parameter dictionary: the keys of
    the registry are strings, so a number is never among them. *)
Definition registry_getitem {V} (registry : gmap string V) (key : pyval)
    : result V :=
  match key with
  | PStr name => getitem registry name
  | PNum _ => Raise KeyError
  end.

Definition get_transformation_function (parameters : gmap string pyval)
    : result transformation_function :=
  transformation_type ←
    getitem parameters ComponentSpecificParametersEnum.TRANSFORMATION_TYPE;
  transformation_function ←
    registry_getitem _default_transformation_function_registry
                     transformation_type;
  Ok transformation_function.

End Engine.

Arguments pyval : clear implicits.


(** The binary64 arithmetic of the worked examples. *)
Definition f64 : Number := binary64 pow10_table.

(** A number in a parameter dictionary of the worked examples. *)
Definition number (x : float) : pyval f64 := @PNum f64 x.

(** *** Calls that succeed, calls that raise *)

Import ComponentSpecificParametersEnum TransformationTypeEnum.

Section EngineFacts.

Context {N : Number}.

Implicit Types (predictions : list num) (parameters : gmap string (pyval N)).

(** The value of a [try] block whose handler returns 0. *)
Definition or_zero (body : result num) : num :=
  match body with
  | Ok y => y
  | Raise _ => of_int 0
  end.

Lemma try_except_or_zero (body : result num) :
  try_except body (Ok (of_int 0)) = Ok (or_zero body).
Proof. by destruct body. Qed.

Lemma mapM_cons {A B} (f : A → result B) x l :
  mapM f (x :: l) = y ← f x; k ← mapM f l; mret (y :: k).
Proof. reflexivity. Qed.

(** A comprehension whose body never raises builds the whole list. *)
Lemma mapM_Ok {A B} (f : A → result B) (g : A → B) l :
  (∀ x, x ∈ l → f x = Ok (g x)) → mapM f l = Ok (g <$> l).
Proof.
  induction l as [|x l IH]; intros Hf; [done|].
  rewrite mapM_cons, Hf by left. simpl.
  rewrite IH by (intros; apply Hf; by right). done.
Qed.

Lemma getitem_Some {V} (d : gmap string V) key v :
  d !! key = Some v → getitem d key = Ok v.
Proof. unfold getitem. by intros ->. Qed.

Lemma getitem_None {V} (d : gmap string V) key :
  d !! key = None → getitem d key = Raise KeyError.
Proof. unfold getitem. by intros ->. Qed.

Lemma getitem_cases {V} (d : gmap string V) key :
  getitem d key = Raise KeyError ∨ ∃ v, getitem d key = Ok v.
Proof. unfold getitem. destruct (d !! key); eauto. Qed.

Lemma reverse_sigmoid_transformation_Ok predictions parameters low high k :
  parameters !! LOW = Some low → parameters !! HIGH = Some high →
  parameters !! K = Some k →
  reverse_sigmoid_transformation predictions parameters =
    Ok ((λ value, np_float32 (or_zero (_reverse_sigmoid_try value low high k)))
          <$> predictions).
Proof.
  intros Hlow Hhigh Hk. unfold reverse_sigmoid_transformation.
  rewrite (getitem_Some _ _ _ Hlow), (getitem_Some _ _ _ Hhigh),
    (getitem_Some _ _ _ Hk). simpl.
  rewrite (mapM_Ok _ (λ value, or_zero (_reverse_sigmoid_try value low high k)))
    by (intros; apply try_except_or_zero).
  simpl. unfold np_array_float32. by rewrite <- list_fmap_compose.
Qed.

Lemma double_sigmoid_Ok predictions parameters low high coef_div coef_si coef_se :
  parameters !! LOW = Some low → parameters !! HIGH = Some high →
  parameters !! COEF_DIV = Some coef_div →
  parameters !! COEF_SI = Some coef_si →
  parameters !! COEF_SE = Some coef_se →
  double_sigmoid predictions parameters =
    Ok ((λ value,
           np_float32
             (or_zero (_double_sigmoid_try value low high
                         coef_div coef_si coef_se)))
          <$> predictions).
Proof.
  intros Hlow Hhigh Hdiv Hsi Hse. unfold double_sigmoid.
  rewrite (getitem_Some _ _ _ Hlow), (getitem_Some _ _ _ Hhigh),
    (getitem_Some _ _ _ Hdiv), (getitem_Some _ _ _ Hsi),
    (getitem_Some _ _ _ Hse). simpl.
  rewrite (mapM_Ok _ (λ value, or_zero (_double_sigmoid_try value low high
                                          coef_div coef_si coef_se)))
    by (intros; apply try_except_or_zero).
  simpl. unfold np_array_float32. by rewrite <- list_fmap_compose.
Qed.

Lemma right_step_Ok predictions parameters (low : num) :
  parameters !! LOW = Some (PNum low) →
  right_step predictions parameters =
    Ok ((λ value, np_float32 (of_int (if py_ge value low then 1 else 0)))
          <$> predictions).
Proof.
  intros Hlow. unfold right_step. rewrite (getitem_Some _ _ _ Hlow). simpl.
  rewrite (mapM_Ok _ (λ value, of_int (if py_ge value low then 1 else 0)))
    by (intros value _; unfold _right_step_formula; simpl;
        by destruct (py_ge value low)).
  simpl. unfold np_array_float32. by rewrite <- list_fmap_compose.
Qed.

Lemma step_Ok predictions parameters (low high : num) :
  parameters !! LOW = Some (PNum low) →
  parameters !! HIGH = Some (PNum high) →
  step predictions parameters =
    Ok ((λ value,
           np_float32
             (of_int (if py_le low value && py_le value high then 1 else 0)))
          <$> predictions).
Proof.
  intros Hlow Hhigh. unfold step.
  rewrite (getitem_Some _ _ _ Hlow), (getitem_Some _ _ _ Hhigh). simpl.
  rewrite (mapM_Ok _ (λ value, of_int (if py_le low value && py_le value high
                                       then 1 else 0)))
    by (intros value _; unfold _step_formula; simpl;
        by destruct (py_le low value), (py_le value high)).
  simpl. unfold np_array_float32. by rewrite <- list_fmap_compose.
Qed.

(** C3. In [reverse_sigmoid_transformation] and [double_sigmoid] an exception
    raised while the formula of one element is evaluated (a division by zero,
    an overflow) is contained: the call succeeds with one element per score,
    the element of a score whose formula raised is 0, and the element of
    every other score is the value of its formula. *)
Theorem fault_containment predictions parameters low high :
  parameters !! LOW = Some low → parameters !! HIGH = Some high →
  (∀ k, parameters !! K = Some k →
     ∃ transformed,
       reverse_sigmoid_transformation predictions parameters = Ok transformed
       ∧ length transformed = length predictions
       ∧ transformed =
           (λ value, np_float32 (or_zero (_reverse_sigmoid_try value low high k)))
             <$> predictions)
  ∧ (∀ coef_div coef_si coef_se,
       parameters !! COEF_DIV = Some coef_div →
       parameters !! COEF_SI = Some coef_si →
       parameters !! COEF_SE = Some coef_se →
       ∃ transformed,
         double_sigmoid predictions parameters = Ok transformed
         ∧ length transformed = length predictions
         ∧ transformed =
             (λ value,
                np_float32
                  (or_zero (_double_sigmoid_try value low high
                              coef_div coef_si coef_se)))
               <$> predictions).
Proof.
  intros Hlow Hhigh. split.
  - intros k Hk. eexists. split; [|split; [|reflexivity]].
    + by apply reverse_sigmoid_transformation_Ok.
    + by rewrite length_fmap.
  - intros coef_div coef_si coef_se Hdiv Hsi Hse.
    eexists. split; [|split; [|reflexivity]].
    + by apply double_sigmoid_Ok.
    + by rewrite length_fmap.
Qed.

(** C7. [right_step] maps each score to 1 if [value >= low] and to 0
    otherwise; [step] maps it to 1 if [low <= value <= high] and to 0
    otherwise. *)
Theorem step_functions predictions parameters (low : num) :
  parameters !! LOW = Some (PNum low) →
  right_step predictions parameters =
    Ok ((λ value, np_float32 (of_int (if py_ge value low then 1 else 0)))
          <$> predictions)
  ∧ ∀ high : num,
      parameters !! HIGH = Some (PNum high) →
      step predictions parameters =
        Ok ((λ value,
               np_float32
                 (of_int (if py_le low value && py_le value high
                          then 1 else 0)))
              <$> predictions).
Proof.
  intros Hlow. split.
  - by apply right_step_Ok.
  - intros high Hhigh. by apply step_Ok.
Qed.

(** The keys each transformation reads from its parameters, in the order of
    the lookups that open its body. *)
Definition required_parameters : list (string * list string) :=
  [ (NO_TRANSFORMATION, []);
    (RIGHT_STEP, [LOW]);
    (STEP, [LOW; HIGH]);
    (SIGMOID, [LOW; HIGH; K]);
    (REVERSE_SIGMOID, [LOW; HIGH; K]);
    (DOUBLE_SIGMOID, [LOW; HIGH; COEF_DIV; COEF_SI; COEF_SE]) ].

Lemma registry_lookup kind (f : transformation_function) :
  _default_transformation_function_registry !! kind = Some f →
  (kind = SIGMOID ∧ f = sigmoid_transformation)
  ∨ (kind = REVERSE_SIGMOID ∧ f = reverse_sigmoid_transformation)
  ∨ (kind = DOUBLE_SIGMOID ∧ f = double_sigmoid)
  ∨ (kind = NO_TRANSFORMATION ∧ f = no_transformation)
  ∨ (kind = RIGHT_STEP ∧ f = right_step)
  ∨ (kind = STEP ∧ f = step).
Proof.
  unfold _default_transformation_function_registry. simpl.
  intros Hf. repeat (apply lookup_insert_Some in Hf as [[<- <-]|[_ Hf]];
                     [tauto|]).
  by rewrite lookup_empty in Hf.
Qed.

(** The lookups that open a body, up to the one known to fail. *)
Ltac lookups Hmissing :=
  repeat first
    [ by rewrite Hmissing
    | match goal with
      | |- context [getitem ?d ?key] =>
          destruct (getitem_cases d key) as [->|[? ->]]; [done|]; simpl
      end ].

(** C9, amended. A transformation called with parameters that lack one of
    the keys it reads raises [KeyError]: [low] for [right_step]; [low] and
    [high] for [step]; [low], [high] and [k] for [sigmoid_transformation] and
    [reverse_sigmoid_transformation]; [low], [high], [coef_div], [coef_si]
    and [coef_se] for [double_sigmoid], whatever the defaults of its inner
    formula; [no_transformation] reads none. *)
Theorem missing_parameter kind keys key (f : transformation_function)
    predictions parameters :
  (kind, keys) ∈ required_parameters → key ∈ keys →
  _default_transformation_function_registry !! kind = Some f →
  parameters !! key = None →
  f predictions parameters = Raise KeyError.
Proof.
  intros Hkind Hkey Hf Hmissing.
  apply getitem_None in Hmissing.
  unfold required_parameters in Hkind.
  repeat (apply elem_of_cons in Hkind as [[= -> ->]|Hkind]);
    [..|by apply elem_of_nil in Hkind];
    apply registry_lookup in Hf
      as [[[=] ->]|[[[=] ->]|[[[=] ->]|[[[=] ->]|[[[=] ->]|[[=] ->]]]]]];
    repeat (apply elem_of_cons in Hkey as [->|Hkey]);
    try (by apply elem_of_nil in Hkey).
  all: unfold right_step, step, sigmoid_transformation,
         reverse_sigmoid_transformation, double_sigmoid.
  all: lookups Hmissing.
Qed.

(** The six kinds of transformation. *)
Definition registered_kinds : list string :=
  [SIGMOID; REVERSE_SIGMOID; DOUBLE_SIGMOID; NO_TRANSFORMATION; RIGHT_STEP;
   STEP].

Lemma registry_unregistered name :
  name ∉ registered_kinds →
  _default_transformation_function_registry !! name = None.
Proof. intros Hname. by apply not_elem_of_list_to_map_1. Qed.

(** C4. [get_transformation_function] raises [KeyError] when the parameters
    have no "transformation_type" and when its value is not one of the six
    registered kinds; when it returns a function, the value is one of the six
    and the function is the one registered under it. *)
Theorem unknown_transformation_type parameters :
  (parameters !! TRANSFORMATION_TYPE = None →
     get_transformation_function parameters = Raise KeyError)
  ∧ (∀ v, parameters !! TRANSFORMATION_TYPE = Some v →
       (∀ name, v = PStr name → name ∉ registered_kinds) →
       get_transformation_function parameters = Raise KeyError)
  ∧ (∀ f, get_transformation_function parameters = Ok f →
       ∃ name, parameters !! TRANSFORMATION_TYPE = Some (PStr name)
               ∧ name ∈ registered_kinds
               ∧ _default_transformation_function_registry !! name = Some f).
Proof.
  unfold get_transformation_function. split; [|split].
  - intros Hnone. by rewrite (getitem_None _ _ Hnone).
  - intros v Hv Hname. rewrite (getitem_Some _ _ _ Hv). simpl.
    destruct v as [name|x]; [|done]. simpl.
    by rewrite getitem_None by (apply registry_unregistered; by apply Hname).
  - intros f. unfold getitem at 1.
    destruct (parameters !! TRANSFORMATION_TYPE) as [[name|x]|]; try done.
    simpl. unfold getitem.
    destruct (_default_transformation_function_registry !! name)
      as [g|] eqn:Hg; [|done].
    simpl. intros [= <-]. exists name. split; [done|]. split; [|done].
    destruct (decide (name ∈ registered_kinds)) as [|Hout]; [done|].
    apply registry_unregistered in Hout. congruence.
Qed.

(** With [low == high] and [coef_si == coef_se] the two sigmoids of
    [_double_sigmoid_formula] are one and the same computation. *)
Lemma double_sigmoid_try_equal (value low coef_div coef : num) :
  or_zero (_double_sigmoid_try value (PNum low) (PNum low)
             (PNum coef_div) (PNum coef) (PNum coef)) =
  match sigmoid_term coef value low coef_div with
  | Ok x => py_sub x x
  | Raise _ => of_int 0
  end.
Proof.
  unfold _double_sigmoid_try, sigmoid_term. simpl.
  destruct (pow10_scaled coef value coef_div) as [a|]; [|done]. simpl.
  destruct (pow10_scaled coef low coef_div) as [b|]; [|done]. simpl.
  by destruct (py_truediv a (py_add a b)).
Qed.

(** All transformations but [sigmoid_transformation] return one element per
    score whenever their parameters are there (and, for the step functions,
    are numbers). *)
Lemma total_but_sigmoid predictions parameters low high :
  parameters !! LOW = Some low → parameters !! HIGH = Some high →
  (∃ t, no_transformation predictions parameters = Ok t
        ∧ length t = length predictions)
  ∧ (∀ x, low = PNum x →
       ∃ t, right_step predictions parameters = Ok t
            ∧ length t = length predictions)
  ∧ (∀ x y, low = PNum x → high = PNum y →
       ∃ t, step predictions parameters = Ok t
            ∧ length t = length predictions)
  ∧ (∀ k, parameters !! K = Some k →
       ∃ t, reverse_sigmoid_transformation predictions parameters = Ok t
            ∧ length t = length predictions)
  ∧ (∀ coef_div coef_si coef_se,
       parameters !! COEF_DIV = Some coef_div →
       parameters !! COEF_SI = Some coef_si →
       parameters !! COEF_SE = Some coef_se →
       ∃ t, double_sigmoid predictions parameters = Ok t
            ∧ length t = length predictions).
Proof.
  intros Hlow Hhigh. split; [|split; [|split; [|split]]].
  - eexists. split; [done|]. apply length_fmap.
  - intros x ->. rewrite (right_step_Ok _ _ x) by done.
    eexists. split; [done|]. apply length_fmap.
  - intros x y -> ->. rewrite (step_Ok _ _ x y) by done.
    eexists. split; [done|]. apply length_fmap.
  - intros k Hk.
    rewrite (reverse_sigmoid_transformation_Ok _ _ low high k) by done.
    eexists. split; [done|]. apply length_fmap.
  - intros d si se Hd Hsi Hse.
    rewrite (double_sigmoid_Ok _ _ low high d si se) by done.
    eexists. split; [done|]. apply length_fmap.
Qed.

(** [sigmoid_transformation] has no [try]: what its formula raises for a
    score ends the call. *)
Lemma sigmoid_raises predictions parameters low high k value e :
  parameters !! LOW = Some low → parameters !! HIGH = Some high →
  parameters !! K = Some k →
  _exp value low high k = Raise e →
  sigmoid_transformation (value :: predictions) parameters = Raise e.
Proof.
  intros Hlow Hhigh Hk Hexp. unfold sigmoid_transformation.
  rewrite (getitem_Some _ _ _ Hlow), (getitem_Some _ _ _ Hhigh),
    (getitem_Some _ _ _ Hk). simpl.
  by rewrite Hexp.
Qed.

(** *** Further properties of the transformations *)

(** The body of the comprehension of [sigmoid_transformation]:
    [1 / (1 + _exp(pred_val, _low, _high, _k))]. *)
Definition sigmoid_formula (pred_val : num) (low high k : pyval N)
    : result num :=
  e ← _exp pred_val low high k;
  py_truediv (of_int 1) (py_add (of_int 1) e).

Lemma mapM_Ok_iff {A B} (f : A → result B) l l' :
  mapM f l = Ok l' ↔ Forall2 (λ x y, f x = Ok y) l l'.
Proof.
  revert l'; induction l as [|x l IH]; intros l'.
  - split; [by intros [= <-]|by intros ->%Forall2_nil_inv_l].
  - rewrite mapM_cons. split.
    + destruct (f x) as [y|] eqn:Hx; [|done]. simpl.
      destruct (mapM f l) as [k|] eqn:Hl; [|done]. simpl.
      intros [= <-]. constructor; [done|]. by apply IH.
    + intros (y & k & Hx & Hl & ->)%Forall2_cons_inv_l.
      rewrite Hx. simpl. apply IH in Hl. by rewrite Hl.
Qed.

Lemma mapM_Raise_at {A B} (f : A → result B) before x after e :
  Forall (λ v, ∃ y, f v = Ok y) before → f x = Raise e →
  mapM f (before ++ x :: after) = Raise e.
Proof.
  intros Hbefore Hx. induction Hbefore as [|v before [y Hv] _ IH].
  - by rewrite app_nil_l, mapM_cons, Hx.
  - rewrite <- app_comm_cons, mapM_cons, Hv. simpl. by rewrite IH.
Qed.

(** The keys are there. *)
Ltac present Hpresent :=
  repeat match goal with
  | |- context [getitem ?d ?key] =>
      let v := fresh "v" in
      destruct (Hpresent key) as [v ->%getitem_Some];
      [apply (bool_decide_unpack _); reflexivity|]; simpl
  end.

(** With no scores, every transformation returns the empty array as soon as
    the keys it reads are there - whatever their values: equal bounds, or a
    value that is no number, only matter once there is a score. *)
Theorem empty_predictions kind keys (f : transformation_function) parameters :
  (kind, keys) ∈ required_parameters →
  _default_transformation_function_registry !! kind = Some f →
  (∀ key, key ∈ keys → is_Some (parameters !! key)) →
  f [] parameters = Ok [].
Proof.
  intros Hkind Hf Hpresent.
  unfold required_parameters in Hkind.
  repeat (apply elem_of_cons in Hkind as [[= -> ->]|Hkind]);
    [..|by apply elem_of_nil in Hkind];
    apply registry_lookup in Hf
      as [[[=] ->]|[[[=] ->]|[[[=] ->]|[[[=] ->]|[[[=] ->]|[[=] ->]]]]]].
  all: unfold no_transformation, right_step, step, sigmoid_transformation,
         reverse_sigmoid_transformation, double_sigmoid.
  all: by present Hpresent.
Qed.

(** Resolving looks at "transformation_type" and at nothing else: two
    dictionaries that agree on it resolve alike, and a registered kind
    resolves to its function whatever else the dictionary holds or lacks. *)
Theorem resolution_reads_kind_only parameters parameters' :
  parameters !! TRANSFORMATION_TYPE = parameters' !! TRANSFORMATION_TYPE →
  get_transformation_function parameters
  = get_transformation_function parameters'
  ∧ (∀ kind, kind ∈ registered_kinds →
       parameters !! TRANSFORMATION_TYPE = Some (PStr kind) →
       ∃ f, get_transformation_function parameters' = Ok f
            ∧ _default_transformation_function_registry !! kind = Some f).
Proof.
  intros Hsame. unfold get_transformation_function, getitem.
  rewrite <- Hsame. split; [done|].
  intros kind Hkind ->. simpl. unfold getitem.
  unfold registered_kinds in Hkind.
  repeat (apply elem_of_cons in Hkind as [->|Hkind]; [by eexists|]).
  by apply elem_of_nil in Hkind.
Qed.

Lemma Forall2_Ok_unique {A B} (f : A → result B) l k k' :
  Forall2 (λ x y, f x = Ok y) l k → Forall2 (λ x y, f x = Ok y) l k' → k = k'.
Proof.
  intros Hk. revert k'. induction Hk as [|x y l k Hx _ IH]; intros k' Hk'.
  - by apply Forall2_nil_inv_l in Hk' as ->.
  - apply Forall2_cons_inv_l in Hk' as (y' & k'' & Hx' & Hk' & ->).
    rewrite Hx in Hx'. injection Hx' as <-. f_equal. by apply IH.
Qed.

Lemma sigmoid_transformation_unfold predictions parameters low high k :
  parameters !! LOW = Some low → parameters !! HIGH = Some high →
  parameters !! K = Some k →
  sigmoid_transformation predictions parameters =
  values ← mapM (λ pred_val, sigmoid_formula pred_val low high k) predictions;
  Ok (np_float32 <$> values).
Proof.
  intros Hlow Hhigh Hk. unfold sigmoid_transformation.
  by rewrite (getitem_Some _ _ _ Hlow), (getitem_Some _ _ _ Hhigh),
    (getitem_Some _ _ _ Hk).
Qed.

Lemma sigmoid_transformation_Ok_iff predictions parameters low high k
    transformed :
  parameters !! LOW = Some low → parameters !! HIGH = Some high →
  parameters !! K = Some k →
  sigmoid_transformation predictions parameters = Ok transformed
  ↔ ∃ values,
      Forall2 (λ value x, sigmoid_formula value low high k = Ok x)
              predictions values
      ∧ transformed = np_float32 <$> values.
Proof.
  intros Hlow Hhigh Hk.
  rewrite (sigmoid_transformation_unfold _ _ low high k) by done.
  destruct (mapM (λ pred_val, sigmoid_formula pred_val low high k)
                 predictions) as [values|e] eqn:Hmap; simpl.
  - apply mapM_Ok_iff in Hmap. split.
    + intros [= <-]. by exists values.
    + intros (values' & Hvalues & ->).
      by rewrite (Forall2_Ok_unique _ _ _ _ Hmap Hvalues).
  - split; [done|]. intros (values & Hvalues & _).
    apply mapM_Ok_iff in Hvalues. congruence.
Qed.

(** A call of [sigmoid_transformation] returns exactly when the formula of
    every score returns, and then the array holds the values in order;
    otherwise it raises what the formula of the first failing score raises,
    whatever scores come behind. *)
Theorem sigmoid_transformation_outcome predictions parameters low high k :
  parameters !! LOW = Some low → parameters !! HIGH = Some high →
  parameters !! K = Some k →
  (∀ transformed,
     sigmoid_transformation predictions parameters = Ok transformed
     ↔ ∃ values,
         Forall2 (λ value x, sigmoid_formula value low high k = Ok x)
                 predictions values
         ∧ transformed = np_float32 <$> values)
  ∧ (∀ before value after e,
       predictions = before ++ value :: after →
       Forall (λ v, ∃ x, sigmoid_formula v low high k = Ok x) before →
       sigmoid_formula value low high k = Raise e →
       sigmoid_transformation predictions parameters = Raise e).
Proof.
  intros Hlow Hhigh Hk. split.
  - intros transformed. by apply sigmoid_transformation_Ok_iff.
  - intros before value after e -> Hbefore Hvalue.
    rewrite (sigmoid_transformation_unfold _ _ low high k) by done.
    by rewrite (mapM_Raise_at _ before value after e).
Qed.

(** A string where a number belongs (say "5" for 5, under "low") makes
    [right_step], [step] and [sigmoid_transformation] raise [TypeError] at
    the first score; [reverse_sigmoid_transformation] and [double_sigmoid]
    return 0 for every score instead: their bare [except] hides the
    mistake. *)
Theorem string_parameter predictions parameters (s : string) high :
  parameters !! LOW = Some (PStr s) → parameters !! HIGH = Some high →
  (predictions ≠ [] →
     right_step predictions parameters = Raise TypeError
     ∧ step predictions parameters = Raise TypeError)
  ∧ (∀ k, parameters !! K = Some k →
       (predictions ≠ [] →
          sigmoid_transformation predictions parameters = Raise TypeError)
       ∧ reverse_sigmoid_transformation predictions parameters
         = Ok ((λ _, np_float32 (of_int 0)) <$> predictions))
  ∧ (∀ coef_div coef_si coef_se,
       parameters !! COEF_DIV = Some coef_div →
       parameters !! COEF_SI = Some coef_si →
       parameters !! COEF_SE = Some coef_se →
       double_sigmoid predictions parameters
       = Ok ((λ _, np_float32 (of_int 0)) <$> predictions)).
Proof.
  intros Hlow Hhigh. split; [|split].
  - intros Hne. destruct predictions as [|value rest]; [done|].
    unfold right_step, step.
    by rewrite (getitem_Some _ _ _ Hlow), (getitem_Some _ _ _ Hhigh).
  - intros k Hk. split.
    + intros Hne. destruct predictions as [|value rest]; [done|].
      rewrite (sigmoid_transformation_unfold _ _ (PStr s) high k) by done.
      done.
    + by rewrite (reverse_sigmoid_transformation_Ok _ _ (PStr s) high k).
  - intros coef_div coef_si coef_se Hdiv Hsi Hse.
    by rewrite (double_sigmoid_Ok _ _ (PStr s) high coef_div coef_si coef_se).
Qed.

End EngineFacts.

(** *** Binary64 *)

(** A float minus itself is 0, unless the float is an infinity or nan. *)
Lemma float_sub_diag (x : float) :
  (x - x)%float = if is_finite x then 0%float else nan.
Proof.
  apply Prim2SF_inj. rewrite sub_spec.
  unfold is_finite, is_nan, is_infinity.
  rewrite !FloatAxioms.eqb_spec, abs_spec.
  change (Prim2SF infinity) with (S754_infinity false).
  destruct (Prim2SF x) as [s|s| |s m e]; simpl.
  - by destruct s.
  - by destruct s.
  - done.
  - unfold SF64sub; simpl. rewrite Z.sub_diag. simpl.
    unfold SFeqb, SFcompare. rewrite Z.compare_refl.
    by destruct s; rewrite ?Pos.compare_cont_refl.
Qed.

(** C8, as stated, fails: with [low == high] but [coef_si != coef_se] the two
    sigmoids differ.  For the score 2 with [low = high = 1], [coef_div = 1],
    [coef_si = 2] and [coef_se = 1] the formula gives
    100/110 - 10000/10100, about -0.081, and nothing raises. *)
Lemma double_sigmoid_equal_bounds_nonzero :
  let parameters : gmap string (pyval f64) :=
    <["low" := number 1]> (<["high" := number 1]>
      (<["coef_div" := number 1]> (<["coef_si" := number 2]>
        {[ "coef_se" := number 1 ]}))) in
  parameters !! LOW = parameters !! HIGH
  ∧ double_sigmoid (N := f64) [2%float] parameters
    = Ok [(-0x1.4bcf26p-4)%float]
  ∧ ((-0x1.4bcf26p-4) =? 0)%float = false.
Proof. intros parameters. split; [|split]; reflexivity. Qed.

(** C8, amended. When [low == high] and also [coef_si == coef_se],
    [double_sigmoid] raises nothing and returns 0.0 for every score whose
    formula raises and for every score whose sigmoid is a finite number; for
    a score whose sigmoid is an infinity or nan the element is nan. *)
Theorem double_sigmoid_equal_bounds (pow : float → float → float)
    (predictions : list float)
    (parameters : gmap string (pyval (binary64 pow)))
    (low coef_div coef : float) :
  parameters !! LOW = Some (@PNum (binary64 pow) low) →
  parameters !! HIGH = Some (@PNum (binary64 pow) low) →
  parameters !! COEF_DIV = Some (@PNum (binary64 pow) coef_div) →
  parameters !! COEF_SI = Some (@PNum (binary64 pow) coef) →
  parameters !! COEF_SE = Some (@PNum (binary64 pow) coef) →
  ∃ transformed : list float,
    double_sigmoid (N := binary64 pow) predictions parameters = Ok transformed
    ∧ Forall2
        (λ value y,
           match sigmoid_term (N := binary64 pow) coef value low coef_div with
           | Ok x => y = if is_finite x then 0%float else nan
           | Raise _ => y = 0%float
           end)
        predictions transformed.
Proof.
  intros Hlow Hhigh Hdiv Hsi Hse. eexists. split.
  { by apply (double_sigmoid_Ok (N := binary64 pow) predictions parameters
                _ _ _ _ _ Hlow Hhigh Hdiv Hsi Hse). }
  apply Forall2_fmap_r, Forall_Forall2_diag, Forall_forall.
  intros value _. simpl.
  rewrite (double_sigmoid_try_equal (N := binary64 pow)).
  destruct (sigmoid_term (N := binary64 pow) coef value low coef_div)
    as [x|]; [|done].
  change (py_sub x x) with (x - x)%float. rewrite float_sub_diag.
  by destruct (is_finite x).
Qed.

Lemma double_sigmoid_equal_bounds_witness :
  let parameters : gmap string (pyval f64) :=
    <["low" := number 1]> (<["high" := number 1]>
      (<["coef_div" := number 1]> (<["coef_si" := number 2]>
        {[ "coef_se" := number 2 ]}))) in
  ∃ transformed,
    double_sigmoid (N := f64) [2; 405; nan]%float parameters = Ok transformed
    ∧ transformed = [0; 0; nan]%float.
Proof.
  intros parameters.
  destruct (double_sigmoid_equal_bounds pow10_table [2; 405; nan]%float
              parameters 1%float 1%float 2%float)
    as (transformed & Hcall & Helements); [reflexivity..|].
  exists transformed. split; [exact Hcall|].
  apply Forall2_cons_inv_l in Helements as (y1 & t1 & H1 & Helements & ->).
  apply Forall2_cons_inv_l in Helements as (y2 & t2 & H2 & Helements & ->).
  apply Forall2_cons_inv_l in Helements as (y3 & t3 & H3 & Helements & ->).
  apply Forall2_nil_inv_l in Helements as ->.
  by rewrite H1, H2, H3.
Defined.

(** C2 does not hold of [sigmoid_transformation], which evaluates its
    formula outside any [try]: with [low == high] the division by
    [low - high] raises [ZeroDivisionError], and for a score far below [low]
    [math.pow] raises [OverflowError] (here the exponent is 405); either ends
    the whole call. *)
Theorem sigmoid_transformation_raises :
  sigmoid_transformation (N := f64) [5%float]
    (<["low" := number 1]> (<["high" := number 1]> {[ "k" := number 0.5 ]}))
  = Raise ZeroDivisionError
  ∧ sigmoid_transformation (N := f64) [(-40)%float]
      (<["low" := number 0]> (<["high" := number 1]> {[ "k" := number 1 ]}))
    = Raise OverflowError.
Proof. split; reflexivity. Qed.

Lemma fault_containment_witness :
  let parameters : gmap string (pyval f64) :=
    <["low" := number 0]> (<["high" := number 10]> {[ "k" := number 1 ]}) in
  reverse_sigmoid_transformation (N := f64) [5; 6; 405]%float parameters
  = Ok [0.5; 0x1.745d18p-4; 0]%float
  ∧ reverse_sigmoid_transformation (N := f64) [5; 6; 405]%float
      (<["low" := number 10]> parameters)
    = Ok [0; 0; 0]%float.
Proof.
  intros parameters. split.
  - destruct (fault_containment (N := f64) [5; 6; 405]%float parameters
                (number 0) (number 10)) as [Hreverse _]; [reflexivity..|].
    destruct (Hreverse (number 1)) as (transformed & -> & _ & ->);
      [reflexivity..|]. reflexivity.
  - destruct (fault_containment (N := f64) [5; 6; 405]%float
                (<["low" := number 10]> parameters)
                (number 10) (number 10)) as [Hreverse _]; [reflexivity..|].
    destruct (Hreverse (number 1)) as (transformed & -> & _ & ->);
      [reflexivity..|]. reflexivity.
Defined.

Lemma step_functions_witness :
  right_step (N := f64) [0; 5; 10]%float {[ "low" := number 5 ]}
  = Ok [0; 1; 1]%float
  ∧ step (N := f64) [0; 5; 10]%float
      (<["low" := number 4]> {[ "high" := number 9 ]})
    = Ok [0; 1; 0]%float.
Proof.
  split.
  - destruct (step_functions (N := f64) [0; 5; 10]%float
                {[ "low" := number 5 ]} 5%float) as [-> _];
      [reflexivity..|]. reflexivity.
  - destruct (step_functions (N := f64) [0; 5; 10]%float
                (<["low" := number 4]> {[ "high" := number 9 ]}) 4%float)
      as [_ Hstep]; [reflexivity|].
    rewrite (Hstep 9%float); reflexivity.
Defined.

(** C9, as stated, fails: [high] is not read by every function of the step
    family, nor [k] by every function of the sigmoid family.  [right_step]
    reads [low] only and [double_sigmoid] reads no [k]: resolved through the
    registry and called with parameters that lack these keys, both return
    their scores and raise nothing. *)
Lemma missing_parameter_not_read :
  let step_parameters : gmap string (pyval f64) :=
    <["transformation_type" := PStr "right_step"]> {[ "low" := number 5 ]} in
  let sigmoid_parameters : gmap string (pyval f64) :=
    <["transformation_type" := PStr "double_sigmoid"]>
      (<["low" := number 1]> (<["high" := number 1]>
        (<["coef_div" := number 1]> (<["coef_si" := number 2]>
          {[ "coef_se" := number 1 ]})))) in
  step_parameters !! HIGH = None
  ∧ (f ← get_transformation_function step_parameters;
     f [7%float] step_parameters) = Ok [1%float]
  ∧ sigmoid_parameters !! K = None
  ∧ (f ← get_transformation_function sigmoid_parameters;
     f [2%float] sigmoid_parameters) = Ok [(-0x1.4bcf26p-4)%float].
Proof.
  intros step_parameters sigmoid_parameters.
  split; [|split; [|split]]; reflexivity.
Qed.

Lemma missing_parameter_witness :
  double_sigmoid (N := f64) [2%float]
    (<["low" := number 1]> (<["high" := number 1]>
       (<["coef_si" := number 150]> {[ "coef_se" := number 150 ]})))
  = Raise KeyError.
Proof.
  apply (missing_parameter (N := f64) DOUBLE_SIGMOID
           [LOW; HIGH; COEF_DIV; COEF_SI; COEF_SE] COEF_DIV).
  - apply (bool_decide_unpack _). reflexivity.
  - apply (bool_decide_unpack _). reflexivity.
  - reflexivity.
  - reflexivity.
Defined.

Lemma unknown_transformation_type_witness :
  get_transformation_function (N := f64)
    {[ "transformation_type" := PStr "bogus" ]} = Raise KeyError
  ∧ get_transformation_function (N := f64) {[ "low" := number 1 ]}
    = Raise KeyError.
Proof.
  split.
  - apply (proj1 (proj2 (unknown_transformation_type (N := f64)
                           {[ "transformation_type" := PStr "bogus" ]}))
             (PStr "bogus")); [reflexivity|].
    intros name [= <-]. apply (bool_decide_unpack _). reflexivity.
  - apply (proj1 (unknown_transformation_type (N := f64)
                    {[ "low" := number 1 ]})).
    reflexivity.
Defined.

(** *** Further properties in binary64 *)

Lemma float_eqb_zero (x : float) :
  (x =? 0)%float = true ↔ ∃ s, Prim2SF x = S754_zero s.
Proof.
  rewrite FloatAxioms.eqb_spec.
  change (Prim2SF 0) with (S754_zero false).
  destruct (Prim2SF x) as [s|s| |s m e]; simpl; split;
    try done; eauto; try (by intros [? [=]]); by destruct s.
Qed.

Lemma float_is_finite (x : float) :
  is_finite x = true →
  (∃ s, Prim2SF x = S754_zero s) ∨ (∃ s m e, Prim2SF x = S754_finite s m e).
Proof.
  unfold is_finite, is_nan, is_infinity.
  rewrite !FloatAxioms.eqb_spec, abs_spec.
  change (Prim2SF infinity) with (S754_infinity false).
  destruct (Prim2SF x) as [s|s| |s m e]; simpl.
  - intros _. left. by exists s.
  - by destruct s.
  - done.
  - intros _. right. by exists s, m, e.
Qed.

(** A finite float times a zero is a zero. *)
Lemma float_mul_zero (a z : float) :
  is_finite a = true → (z =? 0)%float = true → (a * z =? 0)%float = true.
Proof.
  intros Ha [sz Hz]%float_eqb_zero. apply float_eqb_zero.
  rewrite mul_spec, Hz. unfold SF64mul.
  destruct (float_is_finite a Ha) as [[s ->]|(s & m & e & ->)]; simpl; eauto.
Qed.

Lemma float_zero_mul (z a : float) :
  is_finite a = true → (z =? 0)%float = true → (z * a =? 0)%float = true.
Proof.
  intros Ha [sz Hz]%float_eqb_zero. apply float_eqb_zero.
  rewrite mul_spec, Hz. unfold SF64mul.
  destruct (float_is_finite a Ha) as [[s ->]|(s & m & e & ->)]; simpl; eauto.
Qed.

(** A zero divided by a finite float other than zero is a zero. *)
Lemma float_zero_div (z d : float) :
  (z =? 0)%float = true → is_finite d = true → (d =? 0)%float = false →
  (z / d =? 0)%float = true.
Proof.
  intros [sz Hz]%float_eqb_zero Hd Hnonzero. apply float_eqb_zero.
  rewrite div_spec, Hz. unfold SF64div.
  destruct (float_is_finite d Hd) as [Hzero|(s & m & e & ->)]; simpl; eauto.
  apply float_eqb_zero in Hzero. congruence.
Qed.

Section Binary64Facts.

Variable pow : float → float → float.

Let F : Number := binary64 pow.

Implicit Types (predictions : list float) (parameters : gmap string (pyval F)).

(** With equal finite bounds the two sigmoids part ways on every non-empty
    list of scores, whatever the scores and [k]: the division by
    [low - high] makes [sigmoid_transformation] raise [ZeroDivisionError],
    the division by [high - low] makes [reverse_sigmoid_transformation]
    return 0.0 throughout. *)
Theorem equal_bounds low k predictions parameters :
  is_finite low = true →
  parameters !! LOW = Some (@PNum F low) →
  parameters !! HIGH = Some (@PNum F low) →
  parameters !! K = Some (@PNum F k) →
  (predictions ≠ [] →
     sigmoid_transformation (N := F) predictions parameters
     = Raise ZeroDivisionError)
  ∧ reverse_sigmoid_transformation (N := F) predictions parameters
    = Ok ((λ _, 0%float) <$> predictions).
Proof.
  intros Hfinite Hlow Hhigh Hk.
  assert (Hdiv : ∀ x, float_truediv x (low - low) = Raise ZeroDivisionError).
  { intros x. unfold float_truediv. by rewrite float_sub_diag, Hfinite. }
  split.
  - intros Hne. destruct predictions as [|value rest]; [done|].
    rewrite (sigmoid_transformation_unfold (N := F) _ _ _ _ _ Hlow Hhigh Hk).
    rewrite mapM_cons. unfold sigmoid_formula, _exp. simpl.
    by rewrite Hdiv.
  - rewrite (reverse_sigmoid_transformation_Ok (N := F) _ _ _ _ _
               Hlow Hhigh Hk).
    f_equal. apply list_fmap_ext. intros _ value _.
    unfold _reverse_sigmoid_try. simpl. by rewrite Hdiv.
Qed.

(** A zero numerator makes the exponent a zero, and the power 1. *)
Lemma zero_exponent (z w d : float) :
  is_finite w = true → (z =? 0)%float = true →
  is_finite d = true → (d =? 0)%float = false →
  ∃ q, float_truediv (w * z) d = Ok q ∧ ∀ x, float_pow pow x q = Ok 1%float.
Proof.
  intros Hw Hz Hd Hnonzero. exists (w * z / d)%float. split.
  - unfold float_truediv. by rewrite Hnonzero.
  - intros x. unfold float_pow.
    by rewrite (float_zero_div _ d (float_mul_zero w z Hw Hz) Hd Hnonzero).
Qed.

(** A score at the midpoint of the bounds is mapped to 0.5 exactly by both
    sigmoids, for every steepness [k] and every pair of bounds with a finite
    difference other than zero: the exponent is a zero, and 10 to the power
    of zero is 1. *)
Theorem sigmoid_midpoint (low high k : float) predictions parameters
    (i : nat) (value : float) :
  parameters !! LOW = Some (@PNum F low) →
  parameters !! HIGH = Some (@PNum F high) →
  parameters !! K = Some (@PNum F k) →
  predictions !! i = Some value →
  (is_finite (10 * k) = true →
   is_finite (low - high) = true → (low - high =? 0)%float = false →
   (value - (low + high) * 0.5 =? 0)%float = true →
   ∀ transformed : list float,
     sigmoid_transformation (N := F) predictions parameters = Ok transformed →
     transformed !! i = Some 0.5%float)
  ∧ (is_finite k = true →
     is_finite (high - low) = true → (high - low =? 0)%float = false →
     (value - (high + low) / 2 =? 0)%float = true →
     ∃ transformed : list float,
       reverse_sigmoid_transformation (N := F) predictions parameters
       = Ok transformed
       ∧ transformed !! i = Some 0.5%float).
Proof.
  intros Hlow Hhigh Hk Hvalue. split.
  - intros Hfinite Hd Hnonzero Hmid transformed Hcall.
    apply (sigmoid_transformation_Ok_iff (N := F) _ _ _ _ _ _ Hlow Hhigh Hk)
      in Hcall as (values & Hvalues & ->).
    destruct (Forall2_lookup_l _ _ _ _ _ Hvalues Hvalue) as (x & Hx & Hformula).
    rewrite list_lookup_fmap, Hx. simpl.
    destruct (zero_exponent _ _ _ Hfinite Hmid Hd Hnonzero) as (q & Hq & Hpow).
    unfold sigmoid_formula, _exp in Hformula. simpl in Hformula.
    change (float_of_int 10 * k)%float with (10 * k)%float in Hformula.
    rewrite Hq in Hformula. simpl in Hformula. rewrite Hpow in Hformula.
    by injection Hformula as <-.
  - intros Hfinite Hd Hnonzero Hmid. eexists. split.
    { apply (reverse_sigmoid_transformation_Ok (N := F) _ _ _ _ _
               Hlow Hhigh Hk). }
    rewrite list_lookup_fmap.
    etrans; [exact (f_equal (fmap _) Hvalue)|]. simpl.
    assert (Hzero : (k * (value - (high + low) / 2) =? 0)%float = true)
      by by apply float_mul_zero.
    assert (Hten : (k * (value - (high + low) / 2) * 10 =? 0)%float = true)
      by by apply float_zero_mul.
    assert (Hq : float_truediv (k * (value - (high + low) / 2) * 10)
                               (high - low)
                 = Ok (k * (value - (high + low) / 2) * 10 / (high - low))%float).
    { unfold float_truediv. by rewrite Hnonzero. }
    unfold _reverse_sigmoid_try. simpl.
    change (float_truediv (high + low) (float_of_int 2))
      with (Ok ((high + low) / 2)%float : result float). simpl.
    change (float_of_int 10) with 10%float.
    change (float_of_int 2) with 2%float.
    rewrite Hq. simpl. unfold float_pow.
    by rewrite (float_zero_div _ _ Hten Hd Hnonzero).
Qed.

(** A score that is nan is mapped to 0.0 by both step functions, whatever the
    bounds: every comparison with nan is false. *)
Theorem nan_score_steps (low high : float) (predictions : list float)
    (parameters : gmap string (pyval F)) (i : nat) :
  parameters !! LOW = Some (@PNum F low) →
  parameters !! HIGH = Some (@PNum F high) →
  predictions !! i = Some nan →
  ∃ stepped_right stepped : list float,
    right_step (N := F) predictions parameters = Ok stepped_right
    ∧ stepped_right !! i = Some 0%float
    ∧ step (N := F) predictions parameters = Ok stepped
    ∧ stepped !! i = Some 0%float.
Proof.
  intros Hlow Hhigh Hnan.
  assert (Hleb : ∀ x, (x <=? nan)%float = false).
  { intros x. rewrite leb_spec. change (Prim2SF nan) with S754_nan.
    by destruct (Prim2SF x). }
  eexists _, _. split; [|split; [|split]].
  - apply (right_step_Ok (N := F) _ _ _ Hlow).
  - rewrite list_lookup_fmap.
    etrans; [exact (f_equal (fmap _) Hnan)|]. simpl.
    change (py_ge (Number := F) nan low) with (low <=? nan)%float. by rewrite Hleb.
  - apply (step_Ok (N := F) _ _ _ _ Hlow Hhigh).
  - rewrite list_lookup_fmap.
    etrans; [exact (f_equal (fmap _) Hnan)|]. simpl.
    change (py_le (Number := F) low nan) with (low <=? nan)%float. by rewrite Hleb.
Qed.

End Binary64Facts.

(** *** Worked examples of the further properties *)

Lemma empty_predictions_witness :
  sigmoid_transformation (N := f64) []
    (<["low" := number 1]> (<["high" := number 1]> {[ "k" := PStr "steep" ]}))
  = Ok [].
Proof.
  apply (empty_predictions (N := f64) SIGMOID [LOW; HIGH; K]).
  - apply (bool_decide_unpack _). reflexivity.
  - reflexivity.
  - intros key Hkey.
    repeat (apply elem_of_cons in Hkey as [->|Hkey]; [by eexists|]).
    by apply elem_of_nil in Hkey.
Defined.

Lemma resolution_reads_kind_only_witness :
  get_transformation_function (N := f64)
    {[ "transformation_type" := PStr "sigmoid" ]}
  = get_transformation_function (N := f64)
      (<["transformation_type" := PStr "sigmoid"]> {[ "low" := number 1 ]}).
Proof.
  apply (resolution_reads_kind_only (N := f64)). reflexivity.
Defined.

Lemma sigmoid_transformation_outcome_witness :
  sigmoid_transformation (N := f64) [6; 405; 7]%float
    (<["low" := number 10]> (<["high" := number 0]> {[ "k" := number 1 ]}))
  = Raise OverflowError.
Proof.
  destruct (sigmoid_transformation_outcome (N := f64) [6; 405; 7]%float
              (<["low" := number 10]>
                 (<["high" := number 0]> {[ "k" := number 1 ]}))
              (number 10) (number 0) (number 1)) as [_ Hraise];
    [reflexivity..|].
  apply (Hraise [6%float] 405%float [7%float]).
  - reflexivity.
  - constructor; [|constructor]. eexists. reflexivity.
  - reflexivity.
Defined.

Lemma string_parameter_witness :
  let parameters : gmap string (pyval f64) :=
    <["low" := PStr "5"]> (<["high" := number 9]> {[ "k" := number 1 ]}) in
  right_step (N := f64) [7%float] parameters = Raise TypeError
  ∧ reverse_sigmoid_transformation (N := f64) [7; 8]%float parameters
    = Ok [0; 0]%float.
Proof.
  intros parameters.
  destruct (string_parameter (N := f64) [7%float] parameters "5" (number 9))
    as [Hstep _]; [reflexivity..|].
  destruct (string_parameter (N := f64) [7; 8]%float parameters "5" (number 9))
    as (_ & Hsigmoid & _); [reflexivity..|].
  split.
  - by apply Hstep.
  - destruct (Hsigmoid (number 1)) as [_ ->]; reflexivity.
Defined.

Lemma equal_bounds_witness :
  let parameters : gmap string (pyval f64) :=
    <["low" := number 3]> (<["high" := number 3]> {[ "k" := number 2 ]}) in
  sigmoid_transformation (N := f64) [1; 2]%float parameters
  = Raise ZeroDivisionError
  ∧ reverse_sigmoid_transformation (N := f64) [1; 2]%float parameters
    = Ok [0; 0]%float.
Proof.
  intros parameters.
  destruct (equal_bounds pow10_table 3%float 2%float [1; 2]%float parameters)
    as [Hsigmoid Hreverse]; [reflexivity..|].
  split; [by apply Hsigmoid | exact Hreverse].
Defined.

Lemma sigmoid_midpoint_witness :
  let parameters : gmap string (pyval f64) :=
    <["low" := number 10]> (<["high" := number 0]> {[ "k" := number 1 ]}) in
  ∃ transformed,
    sigmoid_transformation (N := f64) [6; 5]%float parameters = Ok transformed
    ∧ transformed !! 1%nat = Some 0.5%float.
Proof.
  intros parameters.
  destruct (sigmoid_midpoint pow10_table 10%float 0%float 1%float
              [6; 5]%float parameters 1%nat 5%float)
    as [Hsigmoid _]; [reflexivity..|].
  eexists. split; [reflexivity|].
  apply Hsigmoid; reflexivity.
Defined.

Lemma nan_score_steps_witness :
  ∃ stepped_right stepped : list float,
    right_step (N := f64) [7; nan]%float
      (<["low" := number 5]> {[ "high" := number 9 ]}) = Ok stepped_right
    ∧ stepped_right !! 1%nat = Some 0%float
    ∧ step (N := f64) [7; nan]%float
        (<["low" := number 5]> {[ "high" := number 9 ]}) = Ok stepped
    ∧ stepped !! 1%nat = Some 0%float.
Proof.
  apply (nan_score_steps pow10_table 5%float 9%float [7; nan]%float
           (<["low" := number 5]> {[ "high" := number 9 ]}) 1%nat);
    reflexivity.
Defined.

End Transformation.
